(** * only-config: a schema-validated configuration store with observers

    Shallow embedding of [src/Config.js] (classes [Observable] and [Config])
    and the properties of its specification.

    Modelling choices.
    - A JavaScript value is a tree: primitives, and plain objects that carry
      the reference they were allocated at.  Nothing in this program mutates
      an object after it was handed over, so an object is identified with
      the snapshot stored at its reference.
    - A listener (and an [onChange] callback) is a function reference; what
      a call does is recorded as an event [(listener, argument)] in a trace,
      in call order.  Listeners and error handlers that throw or that call
      back into the store are outside the model.
    - The libraries the file imports ([deepmerge], [lodash], [Joi]) are
      collaborators: the first two are parameters of the development, a Joi
      schema is a value that carries its own [validate].
    - Allocation is a counter; every call that may create objects threads
      it. *)

From Stdlib Require Import ZArith String Ascii List Bool Lia.
From stdpp Require Import base option list strings pretty gmap.

Local Open Scope string_scope.

(** ** JavaScript values *)

#[local] Set Warnings "-register-all".

Inductive JsVal : Type :=
| JUndefined
| JNull
| JBool (b : bool)
| JNaN
| JNum (z : Z)
| JStr (s : string)
| JObj (ref : nat) (props : list (string * JsVal)).

Definition JsVal_eq_dec : forall a b : JsVal, {a = b} + {a <> b}.
Proof.
  fix IH 1. intros a b.
  destruct a as [| |x| |x|x|r ps], b as [| |y| |y|y|r' ps'];
    try (right; discriminate); try (left; reflexivity).
  - destruct (Bool.bool_dec x y) as [->|N]; [left; reflexivity|right; congruence].
  - destruct (Z.eq_dec x y) as [->|N]; [left; reflexivity|right; congruence].
  - destruct (String.string_dec x y) as [->|N]; [left; reflexivity|right; congruence].
  - destruct (Nat.eq_dec r r') as [->|N]; [|right; congruence].
    assert (D : {ps = ps'} + {ps <> ps'}).
    { revert ps'. induction ps as [|[k v] ps IHps]; intros [|[k' v'] ps'];
        try (right; discriminate); try (left; reflexivity).
      destruct (String.string_dec k k') as [->|N]; [|right; congruence].
      destruct (IH v v') as [->|N]; [|right; congruence].
      destruct (IHps ps') as [->|N]; [left; reflexivity|right; congruence]. }
    destruct D as [->|N]; [left; reflexivity|right; congruence].
Defined.

#[global] Instance JsVal_eq_decision : EqDecision JsVal := JsVal_eq_dec.

(** [a === b].  [NaN] is the one value that is not identical to itself;
    two objects are identical when they are the same reference. *)
Definition strict_eq (a b : JsVal) : bool :=
  match a with
  | JNaN => false
  | _ => bool_decide (a = b)
  end.

(** [a !== b] *)
Definition strict_neq (a b : JsVal) : bool := negb (strict_eq a b).

(** Deep (structural) equality looks through references. *)
Fixpoint erase (v : JsVal) : JsVal :=
  match v with
  | JObj _ ps => JObj 0 (List.map (fun kv => (fst kv, erase (snd kv))) ps)
  | _ => v
  end.

Definition deep_equal (a b : JsVal) : Prop := erase a = erase b.

(** ** Observable *)

(** A function reference. *)
Definition Listener : Type := nat.

(** One call [listener(val)]. *)
Definition Event : Type := (Listener * JsVal)%type.

Module Observable.

(** Private fields [#val] and [#listeners]. *)
Record t : Type := mk { val : JsVal; listeners : list Listener }.

(** [constructor(value)] *)
Definition new (value : JsVal) : t := mk value [].

(** [for (const listener of this.#listeners) listener(val)] *)
Definition notify (ls : list Listener) (v : JsVal) : list Event :=
  List.map (fun l => (l, v)) ls.

(** [set(val)]: the new object state and the listener calls made. *)
Definition set (o : t) (v : JsVal) : t * list Event :=
  if strict_neq (val o) v
  then (mk v (listeners o), notify (listeners o) v)
  else (o, []).

(** [get()] *)
Definition get (o : t) : JsVal := val o.

(** [subscribe(listener)]: [this.#listeners.push(listener)]. *)
Definition subscribe (o : t) (listener : Listener) : t :=
  mk (val o) (listeners o ++ [listener]).

(** The closure returned by [subscribe(listener)], applied to the
    observable it captured:
    [this.#listeners = this.#listeners.filter(l => l !== listener)]. *)
Definition unsubscribe (listener : Listener) (o : t) : t :=
  mk (val o) (List.filter (fun l => negb (Nat.eqb l listener)) (listeners o)).

End Observable.

(** ** Effects: exceptions, allocation, the listener trace *)

(** What [Joi] reports: the collected failure messages ([error.details]). *)
Record JoiError : Type := mkJoiError { details : list string }.

Inductive Exn : Type :=
| TypeError                          (* a member of [null], a call of [undefined] *)
| InvalidSchemaError                 (* [new Error('must pass Joi type schema')] *)
| ValidationError (e : JoiError).    (* [throw error] *)

Inductive Outcome (A : Type) : Type :=
| Normal (a : A)
| Throw (e : Exn).
Arguments Normal {A} a.
Arguments Throw {A} e.

(** A library call: it may allocate and it may throw. *)
Definition Ext (A : Type) : Type := nat -> Outcome A * nat.

(** [schema.validate(candidate, options)] and its result [{ error, value }]. *)
Record ValidateOptions : Type :=
  mkOptions { abortEarly : bool; allowUnknown : bool }.

Record ValidationResult : Type :=
  mkResult { error : option JoiError; value : JsVal }.

Record Schema : Type :=
  mkSchema { validate : JsVal -> ValidateOptions -> Ext ValidationResult }.

(** What a caller may pass as a schema: [null] (or nothing), a Joi schema,
    or some other value, truthy or falsy, that has no [validate] member. *)
Inductive SchemaVal : Type :=
| SNull
| SOther (truthy : bool)
| SJoi (s : Schema).

Definition truthy_schema (s : SchemaVal) : bool :=
  match s with
  | SNull => false
  | SOther b => b
  | SJoi _ => true
  end.

(** [Joi.isSchema(schema)] *)
Definition isSchema (s : SchemaVal) : bool :=
  match s with
  | SJoi _ => true
  | _ => false
  end.

(** [{ abortEarly: false }] and [{ allowUnknown: true, abortEarly: false }] *)
Definition strict : ValidateOptions := mkOptions false false.
Definition lenient : ValidateOptions := mkOptions false true.

(** An [onError] handler, by the truthiness of what it returns. *)
Definition Handler : Type := JoiError -> bool.

(** A key is a string or absent; the empty string is falsy. *)
Definition truthy_key (key : option string) : option string :=
  match key with
  | Some k => if String.eqb k "" then None else Some k
  | None => None
  end.

(** The names every object inherits from [Object.prototype]: reading one
    of them on an empty object literal gives a truthy value. *)
Definition prototype_names : list string :=
  [ "constructor"; "__defineGetter__"; "__defineSetter__"; "hasOwnProperty";
    "__lookupGetter__"; "__lookupSetter__"; "isPrototypeOf";
    "propertyIsEnumerable"; "toString"; "valueOf"; "__proto__";
    "toLocaleString" ].

Definition inherited (k : string) : bool :=
  existsb (String.eqb k) prototype_names.

(** The deep-merge and path collaborators. *)
Class Collaborators : Type := {
  (** [deepMerge.all([a, b])] *)
  deepMerge_all : list JsVal -> Ext JsVal;
  (** [_.set(object, path, value)] *)
  lodash_set : JsVal -> string -> JsVal -> Ext JsVal;
  (** [_.get(object, path)] *)
  lodash_get : JsVal -> string -> JsVal
}.

(** ** Config *)

Module Config.

(** Private fields [#config], [#schema], [#observable], [#observables]. *)
Record t : Type := mk {
  config : JsVal;
  schema : SchemaVal;
  observable : Observable.t;
  observables : gmap string Observable.t
}.

(** The object under execution, the allocation counter, and the listener
    calls made so far. *)
Record World : Type := mkWorld {
  this : t;
  fresh : nat;
  trace : list Event
}.

(** A method body: it reads and writes the world and returns or throws;
    what it wrote before throwing stays written. *)
Definition M (A : Type) : Type := World -> Outcome A * World.

#[global] Instance M_ret : MRet M := fun A a w => (Normal a, w).

#[global] Instance M_bind : MBind M := fun A B f m w =>
  match m w with
  | (Normal a, w') => f a w'
  | (Throw e, w') => (Throw e, w')
  end.

Definition throw {A : Type} (e : Exn) : M A := fun w => (Throw e, w).

Definition read : M t := fun w => (Normal (this w), w).

Definition write (f : t -> t) : M unit :=
  fun w => (Normal tt, mkWorld (f (this w)) (fresh w) (trace w)).

Definition call {A : Type} (f : Ext A) : M A :=
  fun w => let '(r, n) := f (fresh w) in (r, mkWorld (this w) n (trace w)).

(** The object literal [{}]. *)
Definition empty_object : M JsVal :=
  fun w => (Normal (JObj (fresh w) []),
            mkWorld (this w) (S (fresh w)) (trace w)).

(** Listener calls, in the order they are made. *)
Definition emit (evs : list Event) : M unit :=
  fun w => (Normal tt, mkWorld (this w) (fresh w) (trace w ++ evs)).

Definition set_config (v : JsVal) (c : t) : t :=
  mk v (schema c) (observable c) (observables c).
Definition set_schema (s : SchemaVal) (c : t) : t :=
  mk (config c) s (observable c) (observables c).
Definition set_observable (o : Observable.t) (c : t) : t :=
  mk (config c) (schema c) o (observables c).
Definition set_observables (m : gmap string Observable.t) (c : t) : t :=
  mk (config c) (schema c) (observable c) m.

(** A parameter default [x = null]: taken when the argument is
    [undefined]. *)
Definition default_null (x : JsVal) : JsVal :=
  match x with
  | JUndefined => JNull
  | _ => x
  end.

(** A parameter default [x = {}]. *)
Definition default_object (x : JsVal) : M JsVal :=
  match x with
  | JUndefined => empty_object
  | _ => mret x
  end.

(** [s.validate(candidate, options)]; a value without that member makes
    the call a [TypeError]. *)
Definition call_validate (s : SchemaVal) (candidate : JsVal)
    (o : ValidateOptions) : M ValidationResult :=
  match s with
  | SJoi j => call (validate j candidate o)
  | _ => throw TypeError
  end.

(** [this.#observables[key]]: an entry of its own, a member inherited
    from [Object.prototype], or [undefined]. *)
Inductive Slot : Type :=
| Own (o : Observable.t)
| Inherited
| Absent.

Definition slot (m : gmap string Observable.t) (key : string) : Slot :=
  match m !! key with
  | Some o => Own o
  | None => if inherited key then Inherited else Absent
  end.

(** What [subscribe] returns: [undefined], or the unsubscribe closure of
    the observable subscribed to (the root one for [None]). *)
Definition Unsubscriber : Type := (option string * Listener)%type.

Record SetOptions : Type := mkSet {
  opt_override : bool;
  opt_value : JsVal;
  opt_key : option string;
  opt_onError : option Handler
}.

Section Methods.
Context {L : Collaborators}.

(** [get(key)] *)
Definition get (key : option string) (c : t) : JsVal :=
  match truthy_key key with
  | None => config c
  | Some k => lodash_get (config c) k
  end.

(** [_validateJoi(schema)] *)
Definition _validateJoi (s : SchemaVal) : M unit :=
  if truthy_schema s && negb (isSchema s)
  then throw InvalidSchemaError
  else mret tt.

(** [_merge(newValue, onError = false)] *)
Definition _merge (newValue : JsVal) (onError : option Handler) : M unit :=
  c ← read;
  merged ← call (deepMerge_all [config c; newValue]);
  r ← call_validate (schema c) merged strict;
  match error r with
  | None => write (set_config (value r))
  | Some e =>
      match onError with
      | Some h =>
          if h e then
            r' ← call_validate (schema c) merged lenient;
            write (set_config (value r'))
          else mret tt
      | None => throw (ValidationError e)
      end
  end.

(** [_initializeConfig(config = {})] *)
Definition _initializeConfig (cfg : JsVal) : M unit :=
  cfg ← default_object cfg;
  e ← empty_object;
  write (set_config e);;
  _merge cfg None;;
  write (set_observables ∅);;
  c ← read;
  write (set_observable (Observable.new (config c))).

(** [constructor(schema = null, config = {})] *)
Definition constructor (s : SchemaVal) (cfg : JsVal) : M unit :=
  cfg ← default_object cfg;
  (if truthy_schema s then _validateJoi s else mret tt);;
  write (set_schema s);;
  _initializeConfig cfg.

(** [setSchema(newSchema, config = this.#config)] *)
Definition setSchema (newSchema : SchemaVal) (cfg : JsVal) : M unit :=
  c ← read;
  let cfg := match cfg with JUndefined => config c | _ => cfg end in
  _validateJoi newSchema;;
  r ← call_validate newSchema cfg strict;
  match error r with
  | Some e => throw (ValidationError e)
  | None =>
      e ← empty_object;
      write (set_config e);;
      write (set_schema newSchema);;
      _merge cfg None
  end.

(** [subscribe({ onChange, key = null })] *)
Definition subscribe (onChange : option Listener) (key : option string)
    : M (option Unsubscriber) :=
  match onChange with
  | None => mret None
  | Some f =>
      match truthy_key key with
      | None =>
          write (fun c =>
            set_observable (Observable.subscribe (observable c) f) c);;
          mret (Some (None, f))
      | Some k =>
          c ← read;
          (match slot (observables c) k with
           | Absent =>
               write (set_observables
                 (<[k := Observable.new (get key c)]> (observables c)))
           | _ => mret tt
           end);;
          c ← read;
          match slot (observables c) k with
          | Own o =>
              write (set_observables
                (<[k := Observable.subscribe o f]> (observables c)));;
              mret (Some (Some k, f))
          | _ => throw TypeError
          end
      end
  end.

(** [let setValue = value; if (key) setValue = _.set({}, key, value);] *)
Definition setValue (key : option string) (value : JsVal) : Ext JsVal :=
  fun n =>
    match truthy_key key with
    | Some k => lodash_set (JObj n []) k value (S n)
    | None => (Normal value, n)
    end.

(** [set({ override = false, value = null, key = null, onError = null })] *)
Definition set (o : SetOptions) : M unit :=
  let value := default_null (opt_value o) in
  if strict_eq value JNull then mret tt else
  (if opt_override o then _initializeConfig JUndefined else mret tt);;
  setValue ← call (setValue (opt_key o) value);
  _merge setValue (opt_onError o);;
  (match truthy_key (opt_key o) with
   | Some k =>
       c ← read;
       match slot (observables c) k with
       | Own ob =>
           let '(ob', evs) := Observable.set ob (get (opt_key o) c) in
           write (set_observables (<[k := ob']> (observables c)));;
           emit evs
       | Inherited => throw TypeError
       | Absent => mret tt
       end
   | None => mret tt
   end);;
  c ← read;
  let '(ob', evs) := Observable.set (observable c) (config c) in
  write (set_observable ob');;
  emit evs.

(** [new Config(schema, config)]: the constructor runs on an object whose
    fields are not initialised yet; when it throws there is no object. *)
Definition blank : t :=
  mk JUndefined SNull (Observable.new JUndefined) ∅.

Definition new (s : SchemaVal) (cfg : JsVal) (n : nat) : Outcome unit * World :=
  constructor s cfg (mkWorld blank n []).

End Methods.

End Config.

(** ** A reference instance of the collaborators

    The theorems below hold for every deep-merge, path and schema
    collaborator.  To run the store on concrete inputs this module gives one
    instance of each, restricted to trees of plain objects and dotted paths
    without brackets or numeric segments. *)

Module Plain.

(** [object[key]] for a property of the object's own. *)
Fixpoint prop (ps : list (string * JsVal)) (k : string) : option JsVal :=
  match ps with
  | [] => None
  | (k', v) :: rest => if String.eqb k' k then Some v else prop rest k
  end.

(** [object[key] = v]: a new key goes last, a known one keeps its place. *)
Fixpoint assign (ps : list (string * JsVal)) (k : string) (v : JsVal)
    : list (string * JsVal) :=
  match ps with
  | [] => [(k, v)]
  | (k', v') :: rest =>
      if String.eqb k' k then (k', v) :: rest else (k', v') :: assign rest k v
  end.

Definition own (target : JsVal) (k : string) : option JsVal :=
  match target with
  | JObj _ ps => prop ps k
  | _ => None
  end.

(** deepmerge's [propertyIsUnsafe(target, key)]: the key is found on the
    target but is not a property of its own. *)
Definition propertyIsUnsafe (target : JsVal) (k : string) : bool :=
  match target with
  | JObj _ ps => inherited k && negb (bool_decide (is_Some (prop ps k)))
  | _ => false
  end.

(** [Object.keys(s)] of a string with the characters they index. *)
Fixpoint chars (i : nat) (s : string) : list (string * JsVal) :=
  match s with
  | EmptyString => []
  | String a rest => (pretty i, JStr (String a EmptyString)) :: chars (S i) rest
  end.

(** deepmerge's [cloneUnlessOtherwiseSpecified(value)]: a mergeable value
    is copied into new objects, any other is returned as it is. *)
Fixpoint clone (v : JsVal) (n : nat) {struct v} : JsVal * nat :=
  match v with
  | JObj _ ps =>
      let fix go (ps : list (string * JsVal)) (dest : list (string * JsVal))
                 (m : nat) {struct ps} :=
        match ps with
        | [] => (dest, m)
        | (k, x) :: rest =>
            if inherited k then go rest dest m
            else let '(x', m') := clone x m in go rest (assign dest k x') m'
        end in
      let '(d, m) := go ps [] (S n) in (JObj n d, m)
  | _ => (v, n)
  end.

Fixpoint clone_props (ps dest : list (string * JsVal)) (m : nat)
    : list (string * JsVal) * nat :=
  match ps with
  | [] => (dest, m)
  | (k, x) :: rest =>
      let '(x', m') := clone x m in clone_props rest (assign dest k x') m'
  end.

(** deepmerge's [mergeObject(target, source)] for a source that has keys. *)
Fixpoint mergeObject (target source : JsVal) (n : nat) {struct source}
    : JsVal * nat :=
  let '(dest0, n0) :=
    match target with
    | JObj _ tps => clone_props tps [] (S n)
    | _ => ([], S n)
    end in
  match source with
  | JObj _ ps =>
      let fix go (ps : list (string * JsVal)) (dest : list (string * JsVal))
                 (m : nat) {struct ps} :=
        match ps with
        | [] => (dest, m)
        | (k, x) :: rest =>
            if propertyIsUnsafe target k then go rest dest m
            else
              match x, own target k with
              | JObj _ _, Some tv =>
                  let '(x', m') := mergeObject tv x m in
                  go rest (assign dest k x') m'
              | _, _ =>
                  let '(x', m') := clone x m in
                  go rest (assign dest k x') m'
              end
        end in
      let '(d, m) := go ps dest0 n0 in (JObj n d, m)
  | JStr s =>
      (JObj n (fold_left
                 (fun d kv =>
                    if propertyIsUnsafe target (fst kv) then d
                    else assign d (fst kv) (snd kv))
                 (chars 0 s) dest0), n0)
  | _ => (JObj n dest0, n0)
  end.

(** Modelled from the spec: the deep-merge collaborator of section 6, the
    [deepmerge] package, which is not part of the repository.  Objects are
    merged key by key into new objects, any other value of the patch
    replaces the one it meets; [Object.keys] of [null] or [undefined]
    throws. *)
Definition deepmerge (target source : JsVal) : Ext JsVal :=
  fun n =>
    match source with
    | JNull | JUndefined => (Throw TypeError, n)
    | _ => let '(v, m) := mergeObject target source n in (Normal v, m)
    end.

(** [deepmerge.all(array)]: [array.reduce(deepmerge, {})]. *)
Definition all (array : list JsVal) : Ext JsVal :=
  fun n =>
    fold_left
      (fun (acc : Outcome JsVal * nat) next =>
         match acc with
         | (Normal prev, m) => deepmerge prev next m
         | (Throw e, m) => (Throw e, m)
         end)
      array (Normal (JObj n []), S n).

(** Splitting a path at its dots. *)
Fixpoint split_dots (acc : string) (s : string) : list string :=
  match s with
  | EmptyString => [acc]
  | String a rest =>
      if Ascii.eqb a "."%char then acc :: split_dots "" rest
      else split_dots (acc ++ String a EmptyString) rest
  end.

(** lodash's [castPath(path, object)]: a path that is a key of the object
    is that key, any other is split. *)
Definition castPath (path : string) (object : JsVal) : list string :=
  match own object path with
  | Some _ => [path]
  | None => split_dots "" path
  end.

Fixpoint baseGet (object : JsVal) (path : list string) : JsVal :=
  match path with
  | [] => object
  | k :: rest =>
      match own object k with
      | Some v => baseGet v rest
      | None => JUndefined
      end
  end.

(** Modelled from the spec: the dotted-path lookup [_.get] of the [lodash]
    package, which is not part of the repository: successive member
    lookups, [undefined] when a segment is missing (section 4.2, [get]). *)
Definition get (object : JsVal) (path : string) : JsVal :=
  baseGet object (castPath path object).

Definition unsafe_segment (k : string) : bool :=
  String.eqb k "__proto__" || String.eqb k "constructor"
  || String.eqb k "prototype".

Fixpoint baseSet (object : JsVal) (path : list string) (v : JsVal) (n : nat)
    : JsVal * nat :=
  match object, path with
  | JObj r ps, [k] =>
      if unsafe_segment k then (object, n) else (JObj r (assign ps k v), n)
  | JObj r ps, k :: rest =>
      if unsafe_segment k then (object, n)
      else
        let '(child, n1) :=
          match prop ps k with
          | Some (JObj r' ps') => (JObj r' ps', n)
          | _ => (JObj n [], S n)
          end in
        let '(child', n2) := baseSet child rest v n1 in
        (JObj r (assign ps k child'), n2)
  | _, _ => (object, n)
  end.

(** Modelled from the spec: [_.set] of the [lodash] package, which is not
    part of the repository: the value is wrapped into nested objects shaped
    by the dotted path (section 4.2, [set]). *)
Definition set (object : JsVal) (path : string) (v : JsVal) : Ext JsVal :=
  fun n => let '(o, m) := baseSet object (castPath path object) v n in
           (Normal o, m).

#[export] Instance collaborators : Collaborators :=
  {| deepMerge_all := all; lodash_set := set; lodash_get := get |}.

End Plain.

(** Modelled from the spec: the schema collaborator of section 6, a schema
    built with the [Joi] package, which is not part of the repository.
    [object keys] stands for [Joi.object({...})] in strict mode (no
    conversion): each declared key is checked against its type, a missing
    required key and, unless [allowUnknown] is set, every undeclared key is
    reported; [abortEarly] keeps the first report only.  The result value is
    the candidate (Joi hands back a copy of it, which nothing else refers
    to). *)
Module JoiObject.

Inductive Kind : Type := KNumber | KString | KBoolean | KAny.

Record Key : Type := mkKey { name : string; kind : Kind; required : bool }.

Definition check (k : Kind) (v : JsVal) : bool :=
  match k, v with
  | KNumber, JNum z => Z.leb (Z.abs z) 9007199254740991
  | KString, JStr _ => true
  | KBoolean, JBool _ => true
  | KAny, _ => true
  | _, _ => false
  end.

Definition kind_name (k : Kind) : string :=
  match k with
  | KNumber => "a number"
  | KString => "a string"
  | KBoolean => "a boolean"
  | KAny => "a value"
  end.

Definition item_errors (ps : list (string * JsVal)) (key : Key) : list string :=
  match Plain.prop ps (name key) with
  | None | Some JUndefined =>
      if required key then [name key ++ " is required"] else []
  | Some v =>
      if check (kind key) v then []
      else [name key ++ " must be " ++ kind_name (kind key)]
  end.

Definition declared (keys : list Key) (k : string) : bool :=
  existsb (fun key => String.eqb (name key) k) keys.

Definition unknown_errors (keys : list Key) (ps : list (string * JsVal))
    : list string :=
  flat_map (fun kv => if declared keys (fst kv) then []
                      else [fst kv ++ " is not allowed"]) ps.

Definition report (o : ValidateOptions) (errs : list string) : option JoiError :=
  match errs with
  | [] => None
  | first :: _ => Some (mkJoiError (if abortEarly o then [first] else errs))
  end.

Definition object (keys : list Key) : Schema :=
  mkSchema (fun candidate o n =>
    match candidate with
    | JUndefined => (Normal (mkResult None candidate), n)
    | JObj _ ps =>
        let errs :=
          (flat_map (item_errors ps) keys
           ++ (if allowUnknown o then [] else unknown_errors keys ps))%list in
        (Normal (mkResult (report o errs) candidate), n)
    | _ =>
        (Normal (mkResult (report o ["value must be of type object"])
                          candidate), n)
    end).

End JoiObject.

(** ** Vocabulary of the specification *)

Section Vocabulary.
Context {L : Collaborators}.
Import Config.

(** [v] is what the schema returned for some candidate it accepted under
    [{ abortEarly: false }]. *)
Definition Validated (s : SchemaVal) (v : JsVal) : Prop :=
  exists j candidate n n',
    s = SJoi j
    /\ validate j candidate strict n = (Normal (mkResult None v), n').

(** [v] is what the schema returned, with or without complaint, when a
    rejected candidate was validated again with [allowUnknown]. *)
Definition Fallback (s : SchemaVal) (v : JsVal) : Prop :=
  exists j candidate n e v0 n' r n'',
    s = SJoi j
    /\ validate j candidate strict n = (Normal (mkResult (Some e) v0), n')
    /\ validate j candidate lenient n' = (Normal r, n'')
    /\ value r = v.



(** A value that is passed on ([null] and [undefined] are not). *)
Definition given (v : JsVal) : Prop := v <> JNull /\ v <> JUndefined.

(** *** The last value that passed

    The specification's account of one round of merging and validating
    (section 4.2, [_merge], steps 1 to 5), written from its words and not
    from the code: the patch is merged into the base; the merge is
    validated collecting all errors; a valid merge lets the schema's output
    through; an invalid one lets through the output of the [allowUnknown]
    revalidation if a handler was supplied and answered truthy on the
    error; otherwise nothing gets through. *)
Inductive Verdict : Type :=
| Took (v : JsVal)
| Kept.

Definition verdict (s : SchemaVal) (base patch : JsVal)
    (onError : option Handler) (n : nat) : Verdict :=
  match deepMerge_all [base; patch] n, s with
  | (Normal merged, n1), SJoi j =>
      match validate j merged strict n1 with
      | (Normal r, n2) =>
          match error r, onError with
          | None, _ => Took (value r)
          | Some e, Some h =>
              if h e then
                match validate j merged lenient n2 with
                | (Normal r', _) => Took (value r')
                | (Throw _, _) => Kept
                end
              else Kept
          | Some _, None => Kept
          end
      | (Throw _, _) => Kept
      end
  | _, _ => Kept
  end.

(** The patch a [set] call merges (section 4.2, [set]): the value, wrapped
    under a key into a nested object shaped by the dotted path. *)
Definition patch_of (key : option string) (v : JsVal) : Ext JsVal :=
  fun n =>
    match truthy_key key with
    | Some k => lodash_set (JObj n []) k v (S n)
    | None => (Normal v, n)
    end.

(** The empty state, the initial values and the allocator position with
    which a construction that starts at [n] merges them. *)
Definition initial (cfg : JsVal) (n : nat) : JsVal * JsVal * nat :=
  match cfg with
  | JUndefined => (JObj (S n) [], JObj n [], S (S n))
  | _ => (JObj n [], cfg, S n)
  end.

(** The last value that passed after a [set] without [override] made in
    world [w], when [last] was the last one before: a call without value
    makes no round; the round merges the patch into [last]. *)
Definition after_set (o : SetOptions) (w : World) (last : JsVal) : JsVal :=
  match default_null (opt_value o) with
  | JNull => last
  | v =>
      match patch_of (opt_key o) v (fresh w) with
      | (Normal patch, n) =>
          match verdict (schema (this w)) last patch (opt_onError o) n with
          | Took v' => v'
          | Kept => last
          end
      | (Throw _, _) => last
      end
  end.



(** The last two statements of [set]. *)

(** [if (key && this.#observables[key]) this.#observables[key].set(this.get(key))] *)
Definition refresh_key (key : option string) : M unit :=
  match truthy_key key with
  | Some k =>
      c ← read;
      match slot (observables c) k with
      | Own ob =>
          let '(ob', evs) := Observable.set ob (get key c) in
          write (set_observables (<[k := ob']> (observables c)));;
          emit evs
      | Inherited => throw TypeError
      | Absent => mret tt
      end
  | None => mret tt
  end.

(** [this.#observable.set(this.#config)] *)
Definition refresh_root : M unit :=
  c ← read;
  let '(ob', evs) := Observable.set (observable c) (config c) in
  write (set_observable ob');;
  emit evs.

End Vocabulary.

(** ** Scenarios

    Concrete stores, run with the reference collaborators. *)

Module Scenario.
Import Config JoiObject.

#[local] Existing Instance Plain.collaborators.

(** [Joi.object({ a: Joi.number() })] *)
Definition number_a : Schema := object [mkKey "a" KNumber false].

(** [Joi.object({ a: Joi.number().required() })] *)
Definition required_a : Schema := object [mkKey "a" KNumber true].

(** [Joi.object({ b: Joi.any() })] *)
Definition any_b : Schema := object [mkKey "b" KAny false].

Definition after {A B : Type} (m : M A) (r : Outcome B * World)
    : Outcome A * World :=
  m (snd r).

(** [new Config(Joi.object({ a: Joi.number() }), { a: 1 })] *)
Definition store_a1 : Outcome unit * World :=
  new (SJoi number_a) (JObj 100 [("a", JNum 1)]) 0.

(** ... [.subscribe({ onChange: f7 })] *)
Definition store_a1_watched : Outcome (option Unsubscriber) * World :=
  after (subscribe (Some 7) None) store_a1.

(** [new Config(Joi.object({ b: Joi.any() }), { b: { c: 1 } })] and
    [.subscribe({ onChange: f7, key: 'b.c' })] *)
Definition store_bc : Outcome unit * World :=
  new (SJoi any_b) (JObj 100 [("b", JObj 101 [("c", JNum 1)])]) 0.

Definition store_bc_watched : Outcome (option Unsubscriber) * World :=
  after (subscribe (Some 7) (Some "b.c")) store_bc.

Definition accept : Handler := fun _ => true.
Definition decline : Handler := fun _ => false.

End Scenario.

(** ** Settled worlds *)

Section Settled.
Context {L : Collaborators}.
Import Config.

(** The worlds a caller is in after [new Config] and any number of
    [subscribe] calls and of [set] calls that returned. *)
Inductive Settled : World -> Prop :=
| settled_new s cfg n w :
    new s cfg n = (Normal tt, w) -> Settled w
| settled_subscribe f key w r w' :
    Settled w -> subscribe f key w = (r, w') -> Settled w'
| settled_set o w w' :
    Settled w -> set o w = (Normal tt, w') -> Settled w'.

End Settled.

(** More concrete stores. *)
Module Cases.
Import Config JoiObject Scenario.

#[local] Existing Instance Plain.collaborators.

(** [store_a1_watched] after [.setSchema(sameSchema, { a: 2 })]: the state
    is new, the root observable still holds the old one. *)
Definition store_a2_stale : Outcome unit * World :=
  after (setSchema (SJoi number_a) (JObj 101 [("a", JNum 2)]))
    store_a1_watched.



(** [new Config(Joi.object({ a: Joi.number() }), { a: 5 })] *)
Definition store_a5 : Outcome unit * World :=
  new (SJoi number_a) (JObj 100 [("a", JNum 5)]) 0.

End Cases.

(** * Properties *)

(** ** Identity *)

Lemma strict_eq_true (a b : JsVal) : strict_eq a b = true -> a = b.
Proof.
  unfold strict_eq. destruct a; try discriminate;
    intros H; apply bool_decide_eq_true in H; exact H.
Qed.

Lemma strict_eq_refl (a : JsVal) : a <> JNaN -> strict_eq a a = true.
Proof.
  intros N. unfold strict_eq.
  destruct a; try (apply bool_decide_eq_true; reflexivity). congruence.
Qed.

Lemma strict_eq_false_neq (a b : JsVal) : a <> b -> strict_eq a b = false.
Proof.
  intros N. destruct (strict_eq a b) eqn:E; [|reflexivity].
  apply strict_eq_true in E. contradiction.
Qed.

(** ** Observable *)

Section ObservableProps.
Import Observable.

(** After [set(v)], [get()] is [v], whether or not anyone was told. *)
Lemma get_set (o : t) (v : JsVal) : get (fst (set o v)) = v.
Proof.
  unfold set, strict_neq. destruct (strict_eq (val o) v) eqn:E; simpl.
  - apply strict_eq_true in E. exact E.
  - reflexivity.
Qed.

Lemma listeners_set (o : t) (v : JsVal) :
  listeners (fst (set o v)) = listeners o.
Proof. unfold set. destruct (strict_neq (val o) v); reflexivity. Qed.

Lemma events_set (o : t) (v : JsVal) :
  snd (set o v) = if strict_eq (val o) v then [] else notify (listeners o) v.
Proof. unfold set, strict_neq. destruct (strict_eq (val o) v); reflexivity. Qed.

(** Subscribing keeps the value and appends: the listener list is the
    subscription order. *)
Lemma subscribe_all (ls : list Listener) (o : t) :
  val (fold_left subscribe ls o) = val o
  /\ listeners (fold_left subscribe ls o) = (listeners o ++ ls)%list.
Proof.
  revert o. induction ls as [|l ls IH]; intros o; simpl.
  - split; [reflexivity|]. symmetry. apply app_nil_r.
  - destruct (IH (subscribe o l)) as [Hv Hl]. rewrite Hv, Hl. simpl.
    split; [reflexivity|]. rewrite <- app_assoc. reflexivity.
Qed.

Lemma notify_filter (l : Listener) (ls : list Listener) (v : JsVal) :
  notify (List.filter (fun x => negb (Nat.eqb x l)) ls) v
  = List.filter (fun ev => negb (Nat.eqb (fst ev) l)) (notify ls v).
Proof.
  induction ls as [|x ls IH]; simpl; [reflexivity|].
  destruct (Nat.eqb x l); simpl; rewrite IH; reflexivity.
Qed.

Lemma count_filter_other (l l' : Listener) (ls : list Listener) :
  l' <> l ->
  count_occ Nat.eq_dec (List.filter (fun x => negb (Nat.eqb x l)) ls) l'
  = count_occ Nat.eq_dec ls l'.
Proof.
  intros N. induction ls as [|x ls IH]; simpl; [reflexivity|].
  destruct (Nat.eqb_spec x l) as [->|Hx]; simpl.
  - destruct (Nat.eq_dec l l'); [congruence|exact IH].
  - destruct (Nat.eq_dec x l'); rewrite IH; reflexivity.
Qed.

Lemma count_filter_self (l : Listener) (ls : list Listener) :
  count_occ Nat.eq_dec (List.filter (fun x => negb (Nat.eqb x l)) ls) l = 0.
Proof.
  induction ls as [|x ls IH]; simpl; [reflexivity|].
  destruct (Nat.eqb_spec x l) as [->|Hx]; simpl; [exact IH|].
  destruct (Nat.eq_dec x l); [contradiction|exact IH].
Qed.

End ObservableProps.

(** C9.  [Observable.set(v)] calls the listeners exactly when [v] is not
    identical ([!==]) to the stored value: then each subscription is called
    once, in subscription order, with [v]; otherwise nobody is called.  The
    test is identity, not deep equality: a second [set] of the same
    reference is silent, a [set] of a distinct object with the same
    contents is not. *)
Theorem C9_set_notifies_iff_not_identical :
  (forall (o : Observable.t) (v : JsVal),
      snd (Observable.set o v)
      = if strict_eq (Observable.val o) v then []
        else List.map (fun l => (l, v)) (Observable.listeners o))
  /\ (forall (v0 v : JsVal) (ls : list Listener),
         snd (Observable.set
                (fold_left Observable.subscribe ls (Observable.new v0)) v)
         = if strict_eq v0 v then [] else List.map (fun l => (l, v)) ls)
  /\ (forall (o : Observable.t) (r : nat) (ps : list (string * JsVal)),
         snd (Observable.set (fst (Observable.set o (JObj r ps))) (JObj r ps))
         = [])
  /\ (forall (l : Listener) (r : nat) (ps : list (string * JsVal)),
         deep_equal (JObj r ps) (JObj (S r) ps)
         /\ snd (Observable.set
                   (Observable.subscribe (Observable.new (JObj r ps)) l)
                   (JObj (S r) ps))
            = [(l, JObj (S r) ps)]).
Proof.
  split; [|split; [|split]].
  - intros o v. apply events_set.
  - intros v0 v ls. rewrite events_set.
    destruct (subscribe_all ls (Observable.new v0)) as [Hv Hl].
    rewrite Hv, Hl. reflexivity.
  - intros o r ps. rewrite events_set.
    pose proof (get_set o (JObj r ps)) as G. unfold Observable.get in G.
    rewrite G, strict_eq_refl; [reflexivity|discriminate].
  - intros l r ps. split; [reflexivity|].
    rewrite events_set.
    change (Observable.val _) with (JObj r ps).
    rewrite strict_eq_false_neq; [reflexivity|].
    intros E. injection E as E. lia.
Qed.

(** C4, as stated, fails: the same listener subscribed twice and
    unsubscribed once is gone altogether; the next change reaches nobody. *)
Lemma C4_unsubscribe_removes_both :
  let o := Observable.subscribe
             (Observable.subscribe (Observable.new JNull) 7) 7 in
  Observable.listeners o = [7; 7]
  /\ Observable.listeners (Observable.unsubscribe 7 o) = []
  /\ snd (Observable.set o (JNum 1)) = [(7, JNum 1); (7, JNum 1)]
  /\ snd (Observable.set (Observable.unsubscribe 7 o) (JNum 1)) = []
  /\ snd (Observable.set (Observable.unsubscribe 7 o) (JNum 1))
     <> [(7, JNum 1)].
Proof. repeat split; discriminate. Qed.

(** C4, amended.  The unsubscribe function of a listener removes every
    subscription of that function reference: after it, a change is announced
    exactly as it would have been, less all the calls to that listener.
    The subscriptions of any other listener stay, in number and order. *)
Theorem C4_unsubscribe_removes_every_instance :
  forall (o : Observable.t) (l : Listener) (v : JsVal),
    snd (Observable.set (Observable.unsubscribe l o) v)
    = List.filter (fun ev => negb (Nat.eqb (fst ev) l))
                  (snd (Observable.set o v))
    /\ (forall l' : Listener,
          count_occ Nat.eq_dec
            (Observable.listeners (Observable.unsubscribe l o)) l'
          = if Nat.eqb l' l then 0
            else count_occ Nat.eq_dec (Observable.listeners o) l')
    /\ Observable.get (Observable.unsubscribe l o) = Observable.get o.
Proof.
  intros o l v. split; [|split].
  - rewrite !events_set. simpl.
    destruct (strict_eq (Observable.val o) v); [reflexivity|].
    apply notify_filter.
  - intros l'. destruct (Nat.eqb_spec l' l) as [->|N].
    + apply count_filter_self.
    + apply count_filter_other. exact N.
  - reflexivity.
Qed.

(** ** Config *)

#[local] Arguments Config._merge : simpl never.
#[local] Arguments Config._initializeConfig : simpl never.
#[local] Arguments Config.setValue : simpl never.

(** Stepping through a method body. *)
Ltac run :=
  unfold mbind, Config.M_bind, mret, Config.M_ret, Config.read, Config.write,
    Config.call, Config.emit, Config.throw, Config.empty_object,
    Config.default_object, Config.call_validate in *;
  cbn [Config.this Config.fresh Config.trace Config.config Config.schema
       Config.observable Config.observables
       Config.set_config Config.set_schema Config.set_observable
       Config.set_observables
       Config.opt_override Config.opt_value Config.opt_key Config.opt_onError
       fst snd] in *.

Ltac use H := run; cbn; run; rewrite H; cbn; run.

Ltac cases := repeat (run; case_match; simplify_eq/=); run; simplify_eq/=.

Section ConfigProps.
Context {L : Collaborators}.
Import Config.

Lemma given_default (v : JsVal) :
  given v -> default_null v = v /\ strict_eq (default_null v) JNull = false.
Proof.
  intros [N U]. assert (E : default_null v = v).
  { destruct v; try reflexivity. exfalso. apply U. reflexivity. }
  rewrite E. split; [reflexivity|]. apply strict_eq_false_neq. exact N.
Qed.

(** *** [_merge] *)

Lemma merge_commit nv h w j merged n1 v n2 :
  schema (this w) = SJoi j ->
  deepMerge_all [config (this w); nv] (fresh w) = (Normal merged, n1) ->
  validate j merged strict n1 = (Normal (mkResult None v), n2) ->
  _merge nv h w = (Normal tt, mkWorld (set_config v (this w)) n2 (trace w)).
Proof.
  intros Hs Hm Hv. unfold _merge. run.
  use Hm. use Hs. use Hv. reflexivity.
Qed.

Lemma merge_reject nv w j merged n1 e v n2 :
  schema (this w) = SJoi j ->
  deepMerge_all [config (this w); nv] (fresh w) = (Normal merged, n1) ->
  validate j merged strict n1 = (Normal (mkResult (Some e) v), n2) ->
  _merge nv None w
  = (Throw (ValidationError e), mkWorld (this w) n2 (trace w)).
Proof.
  intros Hs Hm Hv. unfold _merge. run.
  use Hm. use Hs. use Hv. reflexivity.
Qed.


Lemma merge_swallow nv h w j merged n1 e v n2 :
  schema (this w) = SJoi j ->
  deepMerge_all [config (this w); nv] (fresh w) = (Normal merged, n1) ->
  validate j merged strict n1 = (Normal (mkResult (Some e) v), n2) ->
  h e = false ->
  _merge nv (Some h) w = (Normal tt, mkWorld (this w) n2 (trace w)).
Proof.
  intros Hs Hm Hv Hh. unfold _merge. run.
  use Hm. use Hs. use Hv. use Hh. reflexivity.
Qed.

(** Whatever [_merge] does, it touches [#config] alone, and leaves there
    either what was there or what the schema returned. *)
Lemma merge_inv nv h w out w' :
  _merge nv h w = (out, w') ->
  schema (this w') = schema (this w)
  /\ observable (this w') = observable (this w)
  /\ observables (this w') = observables (this w)
  /\ trace w' = trace w
  /\ match out with
     | Normal _ =>
         Validated (schema (this w)) (config (this w'))
         \/ (is_Some h
             /\ (Fallback (schema (this w)) (config (this w'))
                 \/ config (this w') = config (this w)))
     | Throw _ => config (this w') = config (this w)
     end.
Proof.
  unfold _merge. intros H. cases; repeat split; eauto.
  - right. split; [eauto|]. left. unfold Fallback.
    match goal with
    | H1 : validate _ _ strict _ = (Normal ?r, _), H2 : error ?r = Some _ |- _ =>
        destruct r as [er vr]; cbn in H2; subst er
    end.
    eauto 12.
  - left. unfold Validated.
    match goal with
    | H1 : validate _ _ strict _ = (Normal ?r, _), H2 : error ?r = None |- _ =>
        destruct r as [er vr]; cbn in H2; subst er
    end.
    eauto 8.
Qed.

(** Without a schema that has [validate], [_merge] throws. *)
Lemma merge_no_schema nv h w :
  isSchema (schema (this w)) = false ->
  exists e w', _merge nv h w = (Throw e, w') /\ this w' = this w.
Proof.
  intros Hs. unfold _merge. run.
  destruct (deepMerge_all _ _) as [[m|e] n1]; [|eauto].
  destruct (schema (this w)); try discriminate; eauto.
Qed.

(** *** [_initializeConfig], the constructor *)

Lemma initializeConfig_inv cfg w out w' :
  _initializeConfig cfg w = (out, w') ->
  schema (this w') = schema (this w)
  /\ trace w' = trace w
  /\ match out with
     | Normal _ =>
         Validated (schema (this w)) (config (this w'))
         /\ observable (this w') = Observable.new (config (this w'))
         /\ observables (this w') = ∅
     | Throw _ =>
         observable (this w') = observable (this w)
         /\ observables (this w') = observables (this w)
     end.
Proof.
  unfold _initializeConfig. intros H. run.
  destruct cfg; cbn in H; run;
    match type of H with
    | context [_merge ?a ?b ?c] =>
        destruct (_merge a b c) as [[[]|e] w1] eqn:Hm;
        apply merge_inv in Hm; cbn in Hm;
        destruct Hm as (Hs & Ho & Hos & Ht & Hc)
    end; simplify_eq/=; repeat split; try congruence;
    destruct Hc as [Hc|[[? Hc] _]]; try discriminate; exact Hc.
Qed.

Lemma new_inv s cfg n w :
  new s cfg n = (Normal tt, w) ->
  schema (this w) = s
  /\ trace w = []
  /\ Validated s (config (this w))
  /\ observable (this w) = Observable.new (config (this w))
  /\ observables (this w) = ∅.
Proof.
  unfold new, constructor, _validateJoi. intros H. run.
  destruct cfg, s as [|[]|j]; cbn in H; run; try discriminate;
    match type of H with
    | context [_initializeConfig ?a ?c] =>
        destruct (_initializeConfig a c) as [[[]|e] w1] eqn:Hi;
        cbn in H; [|discriminate H];
        apply initializeConfig_inv in Hi; cbn in Hi;
        destruct Hi as (Hs & Ht & Hv & Ho & Hos)
    end; simplify_eq/=; repeat split; assumption.
Qed.

(** Without a schema the constructor cannot finish. *)
Lemma new_without_schema s cfg n :
  isSchema s = false -> exists e w, new s cfg n = (Throw e, w).
Proof.
  intros Hs. unfold new, constructor, _validateJoi, _initializeConfig. run.
  destruct s as [|[]|j]; try discriminate; cbn;
    destruct cfg; cbn; run; eauto;
    match goal with
    | |- context [_merge ?a ?b ?c] =>
        destruct (merge_no_schema a b c) as (e & w' & -> & _);
        [reflexivity|eauto]
    end.
Qed.

End ConfigProps.

Section SetProps.
Context {L : Collaborators}.
Import Config.

(** C2.  A patch whose merge the schema rejects, set without [onError]
    (and without [override]): the call throws the error the schema
    collected under [abortEarly: false], and the object is exactly as it
    was, so [get()] is deep-equal to what it was. *)
Theorem C2_rejected_patch_throws_and_state_unchanged
    (w : World) (p : JsVal) (j : Schema)
    (merged : JsVal) (n1 : nat) (e : JoiError) (v : JsVal) (n2 : nat) :
  given p ->
  schema (this w) = SJoi j ->
  deepMerge_all [config (this w); p] (fresh w) = (Normal merged, n1) ->
  validate j merged strict n1 = (Normal (mkResult (Some e) v), n2) ->
  exists w',
    set (mkSet false p None None) w = (Throw (ValidationError e), w')
    /\ this w' = this w
    /\ trace w' = trace w
    /\ deep_equal (get None (this w')) (get None (this w)).
Proof.
  intros Hp Hs Hm Hv. destruct w as [c n t]. cbn in *.
  eexists. split.
  - destruct (given_default _ Hp) as [Hd Hn].
    unfold set. cbn [opt_value]. cbv zeta. rewrite Hn, Hd.
    unfold setValue. run. cbn [truthy_key].
    erewrite merge_reject by eassumption. reflexivity.
  - cbn. repeat split.
Qed.

Lemma truthy_key_get key k c :
  truthy_key key = Some k -> get key c = lodash_get (config c) k.
Proof. intros H. unfold get. rewrite H. reflexivity. Qed.

Lemma slot_not_inherited m k : inherited k = false -> slot m k <> Inherited.
Proof. intros H. unfold slot. rewrite H. destruct (m !! k); discriminate. Qed.


(** *** The stages of [set] *)

Lemma set_stages ov p key h :
  given p ->
  set (mkSet ov p key h)
  = ((if ov then _initializeConfig JUndefined else mret tt);;
     sv ← call (setValue key p);
     _merge sv h;;
     refresh_key key;;
     refresh_root).
Proof.
  intros Hp. destruct (given_default _ Hp) as [Hd Hn].
  unfold set. cbn [opt_value opt_override opt_key opt_onError]. cbv zeta.
  rewrite Hn, Hd. reflexivity.
Qed.

Lemma refresh_root_eq w :
  refresh_root w
  = (Normal tt,
     mkWorld
       (set_observable
          (fst (Observable.set (observable (this w)) (config (this w))))
          (this w))
       (fresh w)
       (trace w
        ++ snd (Observable.set (observable (this w)) (config (this w))))).
Proof.
  unfold refresh_root. run.
  destruct (Observable.set _ _) as [ob' evs]. reflexivity.
Qed.

Lemma refresh_key_inv key w w' :
  refresh_key key w = (Normal tt, w') ->
  config (this w') = config (this w)
  /\ schema (this w') = schema (this w)
  /\ observable (this w') = observable (this w)
  /\ fresh w' = fresh w
  /\ exists evs,
      trace w' = (trace w ++ evs)%list
      /\ match truthy_key key with
         | Some k =>
             match observables (this w) !! k with
             | Some ob =>
                 observables (this w')
                 = <[k := fst (Observable.set ob (get key (this w)))]>
                     (observables (this w))
                 /\ evs = snd (Observable.set ob (get key (this w)))
             | None => observables (this w') = observables (this w) /\ evs = []
             end
         | None => observables (this w') = observables (this w) /\ evs = []
         end.
Proof.
  unfold refresh_key, slot. intros H.
  destruct (truthy_key key) as [k|]; run.
  - destruct (observables (this w) !! k) as [ob|].
    + destruct (Observable.set ob (get key (this w))) as [ob' evs] eqn:E.
      run. simplify_eq/=. repeat split. exists evs. repeat split.
    + destruct (inherited k); simplify_eq/=. repeat split.
      exists []. rewrite app_nil_r. repeat split.
  - simplify_eq/=. repeat split. exists []. rewrite app_nil_r. repeat split.
Qed.

(** What a [set] call that got past its guard and returned has done. *)
Lemma set_returned_inv ov p key h w w' :
  given p ->
  set (mkSet ov p key h) w = (Normal tt, w') ->
  exists w0 sv n0 w1 w2,
    (if ov then _initializeConfig JUndefined w = (Normal tt, w0) else w0 = w)
    /\ setValue key p (fresh w0) = (Normal sv, n0)
    /\ _merge sv h (mkWorld (this w0) n0 (trace w0)) = (Normal tt, w1)
    /\ refresh_key key w1 = (Normal tt, w2)
    /\ refresh_root w2 = (Normal tt, w').
Proof.
  intros Hp H. rewrite (set_stages _ _ _ _ Hp) in H. run.
  assert (exists w0,
    (if ov then _initializeConfig JUndefined w = (Normal tt, w0) else w0 = w)
    /\ (sv ← call (setValue key p); _merge sv h;; refresh_key key;; refresh_root)
         w0 = (Normal tt, w')) as (w0 & Hw0 & H').
  { destruct ov.
    - destruct (_initializeConfig JUndefined w) as [[[]|e] w0]; [|discriminate].
      exists w0. split; [reflexivity|exact H].
    - exists w. split; [reflexivity|exact H]. }
  clear H. run.
  destruct (setValue key p (fresh w0)) as [[sv|e] n0] eqn:Hsv; [|discriminate].
  destruct (_merge sv h _) as [[[]|e] w1] eqn:Hm; [|discriminate].
  destruct (refresh_key key w1) as [[[]|e] w2] eqn:Hk; [|discriminate].
  exists w0, sv, n0, w1, w2. repeat split; assumption.
Qed.

(** A returned [set] leaves the root observable holding the state. *)
Lemma set_returned_mirrors ov p key h w w' :
  given p ->
  set (mkSet ov p key h) w = (Normal tt, w') ->
  Observable.get (observable (this w')) = config (this w').
Proof.
  intros Hp H.
  destruct (set_returned_inv _ _ _ _ _ _ Hp H)
    as (w0 & sv & n0 & w1 & w2 & _ & _ & _ & _ & Hr).
  rewrite refresh_root_eq in Hr. simplify_eq/=. apply get_set.
Qed.

(** A returned [set] with [override] has called nobody and has left no
    listener on the root observable. *)
Lemma set_override_silent p key h w w' :
  given p ->
  set (mkSet true p key h) w = (Normal tt, w') ->
  trace w' = trace w
  /\ Observable.listeners (observable (this w')) = []
  /\ observables (this w') = ∅.
Proof.
  intros Hp H.
  destruct (set_returned_inv _ _ _ _ _ _ Hp H)
    as (w0 & sv & n0 & w1 & w2 & Hi & _ & Hm & Hk & Hr).
  apply initializeConfig_inv in Hi. destruct Hi as (_ & Ht0 & _ & Ho0 & Hos0).
  apply merge_inv in Hm. cbn in Hm. destruct Hm as (_ & Ho1 & Hos1 & Ht1 & _).
  apply refresh_key_inv in Hk.
  destruct Hk as (_ & _ & Ho2 & _ & evs & Ht2 & Hk).
  assert (observables (this w2) = ∅ /\ evs = []) as [Hos2 ->].
  { rewrite Hos1, Hos0 in Hk. destruct (truthy_key key); [|exact Hk].
    rewrite lookup_empty in Hk. exact Hk. }
  rewrite refresh_root_eq in Hr. simplify_eq/=.
  rewrite listeners_set, events_set, Ho2, Ho1, Ho0. cbn.
  rewrite Ht2, Ht1, Ht0.
  destruct (strict_eq _ _); rewrite !app_nil_r; repeat split; assumption.
Qed.

(** A returned [set] without [override] and without key calls the root
    listeners with the new state, unless the state is the very value the
    root observable already holds. *)
Lemma set_notifies_root p h w w' :
  given p ->
  set (mkSet false p None h) w = (Normal tt, w') ->
  trace w'
  = (trace w
     ++ if strict_eq (Observable.val (observable (this w))) (config (this w'))
        then []
        else Observable.notify (Observable.listeners (observable (this w)))
               (config (this w')))%list.
Proof.
  intros Hp H.
  destruct (set_returned_inv _ _ _ _ _ _ Hp H)
    as (w0 & sv & n0 & w1 & w2 & -> & _ & Hm & Hk & Hr).
  apply merge_inv in Hm. cbn in Hm. destruct Hm as (_ & Ho1 & _ & Ht1 & _).
  apply refresh_key_inv in Hk.
  destruct Hk as (Hc2 & _ & Ho2 & _ & evs & Ht2 & _ & ->).
  rewrite refresh_root_eq in Hr. simplify_eq/=.
  rewrite events_set, Ho2, Ho1, Hc2, Ht2, Ht1, app_nil_r. reflexivity.
Qed.


End SetProps.

Section Invariant.
Context {L : Collaborators}.
Import Config.

Lemma not_null_given (p : JsVal) :
  strict_eq (default_null p) JNull = false -> given p.
Proof.
  intros H. split; intros ->; cbn in H; discriminate.
Qed.

Lemma refresh_key_frame key w out w' :
  refresh_key key w = (out, w') ->
  config (this w') = config (this w) /\ schema (this w') = schema (this w).
Proof.
  unfold refresh_key. intros H. destruct (truthy_key key) as [k|]; run.
  - destruct (slot _ k) as [ob| |];
      [destruct (Observable.set ob _) as [ob' evs]; run| |];
      simplify_eq/=; split; reflexivity.
  - simplify_eq/=. split; reflexivity.
Qed.

(** What [_merge] leaves as state is what the round lets through, and the
    state that was there when nothing gets through; a round without handler
    that lets nothing through throws. *)
Lemma merge_verdict nv h w :
  config (this (snd (_merge nv h w)))
  = match verdict (schema (this w)) (config (this w)) nv h (fresh w) with
    | Took v => v
    | Kept => config (this w)
    end
  /\ (verdict (schema (this w)) (config (this w)) nv h (fresh w) = Kept ->
      h = None -> exists e, fst (_merge nv h w) = Throw e).
Proof.
  unfold _merge, verdict. run.
  destruct (deepMerge_all _ _) as [[m|e] n]; cbn; [|eauto].
  destruct (schema (this w)) as [| |j]; run; cbn; eauto.
  destruct (validate j m strict n) as [[[[e|] v]|e] n']; cbn; run; eauto;
    [|split; [reflexivity|discriminate]].
  destruct h as [h|]; [|eauto].
  destruct (h e); cbn; run; [|split; [reflexivity|discriminate]].
  destruct (validate j m lenient n') as [[r|e'] n'']; cbn;
    split; try reflexivity; discriminate.
Qed.

Lemma setValue_patch_of key v : setValue key v = patch_of key v.
Proof. reflexivity. Qed.

(** [set] without [override], however it ends, keeps the schema and
    leaves as state what its round let through. *)
Lemma set_state_inv o w :
  opt_override o = false ->
  schema (this (snd (set o w))) = schema (this w)
  /\ config (this (snd (set o w))) = after_set o w (config (this w)).
Proof.
  destruct o as [ov p key h]. cbn [opt_override]. intros ->.
  unfold after_set. cbn [opt_value opt_key opt_onError].
  destruct (strict_eq (default_null p) JNull) eqn:Hn.
  - apply strict_eq_true in Hn. rewrite Hn.
    unfold set. cbn [opt_value]. cbv zeta. rewrite Hn. split; reflexivity.
  - pose proof (not_null_given _ Hn) as Hp.
    rewrite (set_stages _ _ _ _ Hp). run. rewrite setValue_patch_of.
    destruct p; try (cbn in Hn; discriminate Hn); cbn [default_null];
      match goal with
      | |- context [patch_of key ?v (fresh w)] =>
          destruct (patch_of key v (fresh w)) as [[sv|e] n0];
          [|split; reflexivity];
          pose proof (merge_verdict sv h (mkWorld (this w) n0 (trace w)))
            as [Hc _];
          destruct (_merge sv h _) as [o1 w1] eqn:Hm;
          apply merge_inv in Hm; destruct Hm as (Hs & _); cbn in Hs, Hc;
          (destruct o1 as [[]|e]; [|split; assumption]);
          destruct (refresh_key key w1) as [o2 w2] eqn:Hk;
          apply refresh_key_frame in Hk; destruct Hk as [Hc2 Hs2];
          destruct o2 as [[]|e]; [rewrite refresh_root_eq|]; cbn;
          rewrite ?Hc2, ?Hs2; split; assumption
      end.
Qed.


Lemma setSchema_returned_inv s cfg w w' :
  setSchema s cfg w = (Normal tt, w') ->
  schema (this w') = s /\ Validated s (config (this w')).
Proof.
  unfold setSchema, _validateJoi. intros H. run.
  destruct (truthy_schema s && negb (isSchema s)); run; [discriminate|].
  destruct s as [|b|j]; run; try discriminate.
  destruct (validate j _ strict (fresh w)) as [[[[e|] v]|e] n1]; cbn in H;
    run; try discriminate.
  match type of H with
  | context [_merge ?a ?b ?c] =>
      destruct (_merge a b c) as [[[]|e] w1] eqn:Hm; [|discriminate];
      apply merge_inv in Hm; cbn in Hm;
      destruct Hm as (Hs & _ & _ & _ & Hc)
  end.
  simplify_eq/=. split; [assumption|].
  destruct Hc as [Hc|[[? Hc] _]]; [exact Hc|discriminate].
Qed.

(** A [setSchema] that throws has either left the object alone or has
    already emptied the state and installed the new schema. *)
Lemma setSchema_thrown_inv s cfg w e w' :
  setSchema s cfg w = (Throw e, w') ->
  this w' = this w
  \/ (schema (this w') = s
      /\ exists n, config (this w') = JObj n []).
Proof.
  unfold setSchema, _validateJoi. intros H. run.
  destruct (truthy_schema s && negb (isSchema s)); run;
    [simplify_eq/=; left; reflexivity|].
  destruct s as [|b|j]; run; try (simplify_eq/=; left; reflexivity).
  destruct (validate j _ strict (fresh w)) as [[[[e'|] v]|e'] n1]; cbn in H;
    run; try (simplify_eq/=; left; reflexivity).
  match type of H with
  | context [_merge ?a ?b ?c] =>
      destruct (_merge a b c) as [[[]|e'] w1] eqn:Hm; [discriminate|];
      apply merge_inv in Hm; cbn in Hm;
      destruct Hm as (Hs & _ & _ & _ & Hc)
  end.
  simplify_eq/=. right. split; [assumption|]. eexists. exact Hc.
Qed.

(** The first [subscribe] to a key creates its observable, seeded with the
    value at that key. *)
Lemma subscribe_seeds_the_key_observable f key k w :
  truthy_key key = Some k ->
  observables (this w) !! k = None ->
  inherited k = false ->
  exists w',
    subscribe (Some f) key w = (Normal (Some (Some k, f)), w')
    /\ observables (this w') !! k
       = Some (Observable.mk (lodash_get (config (this w)) k) [f])
    /\ config (this w') = config (this w)
    /\ trace w' = trace w.
Proof.
  intros Hk Hm Hi. unfold subscribe. rewrite Hk. run.
  unfold slot at 1. rewrite Hm, Hi. run.
  unfold slot. cbn. rewrite lookup_insert_eq. run.
  eexists. split; [reflexivity|]. cbn.
  rewrite lookup_insert_eq, (truthy_key_get _ _ _ Hk). repeat split.
Qed.




(** C10.  [set] takes [null], and an omitted value, for no value: the call
    returns and nothing at all has changed, whatever the other options.
    Any other value, the falsy ones included, is merged like any value,
    with or without a key and with or without [override]: it is wrapped
    under the key if there is one and merged into the state (the reset one
    under [override]); when the schema accepts the merge, what it returns
    is the new state, and unless the key is a name inherited from
    [Object.prototype] the call returns with the root observable holding
    it. *)
Theorem C10_only_null_counts_as_no_value :
  (forall (w : World) (ov : bool) (key : option string) (h : option Handler),
      set (mkSet ov JNull key h) w = (Normal tt, w)
      /\ set (mkSet ov JUndefined key h) w = (Normal tt, w))
  /\ (forall (w w0 : World) (ov : bool) (key : option string)
             (h : option Handler) (v : JsVal) (j : Schema)
             (patch : JsVal) (n0 : nat) (merged : JsVal) (n1 : nat)
             (r : JsVal) (n2 : nat),
        given v ->
        (if ov then _initializeConfig JUndefined w = (Normal tt, w0)
         else w0 = w) ->
        schema (this w0) = SJoi j ->
        patch_of key v (fresh w0) = (Normal patch, n0) ->
        deepMerge_all [config (this w0); patch] n0 = (Normal merged, n1) ->
        validate j merged strict n1 = (Normal (mkResult None r), n2) ->
        config (this (snd (set (mkSet ov v key h) w))) = r
        /\ ((forall k, truthy_key key = Some k -> inherited k = false) ->
            fst (set (mkSet ov v key h) w) = Normal tt
            /\ Observable.get
                 (observable (this (snd (set (mkSet ov v key h) w)))) = r)).
Proof.
  split; [intros; split; reflexivity|].
  intros w w0 ov key h v j patch n0 merged n1 r n2 Hv Hi Hs Hp Hm Hval.
  rewrite (set_stages _ _ _ _ Hv). run.
  assert (Ht : (sv ← call (setValue key v); _merge sv h;;
                refresh_key key;; refresh_root) w0
               = (refresh_key key;; refresh_root)
                   (mkWorld (set_config r (this w0)) n2 (trace w0))).
  { run. rewrite setValue_patch_of, Hp.
    erewrite merge_commit; [reflexivity|exact Hs|exact Hm|exact Hval]. }
  assert (Hset : (let (o, w') :=
                    (if ov then _initializeConfig JUndefined else mret ()) w in
                  match o with
                  | Normal _ =>
                      (sv ← call (setValue key v); _merge sv h;;
                       refresh_key key;; refresh_root) w'
                  | Throw e => (Throw e, w')
                  end)
                 = (refresh_key key;; refresh_root)
                     (mkWorld (set_config r (this w0)) n2 (trace w0))).
  { destruct ov; [rewrite Hi|subst w0; run]; exact Ht. }
  run. rewrite Hset. clear Hset Ht.
  destruct (refresh_key key _) as [o2 w2] eqn:Hk.
  pose proof (refresh_key_frame _ _ _ _ Hk) as [Hc2 _]. cbn in Hc2.
  split.
  - destruct o2 as [[]|e]; [rewrite refresh_root_eq|]; cbn; exact Hc2.
  - intros Hkey.
    assert (Ho : o2 = Normal tt).
    { unfold refresh_key in Hk. destruct (truthy_key key) as [k|] eqn:Ek; run;
        [|congruence].
      pose proof (slot_not_inherited
                    (observables (set_config r (this w0))) k (Hkey k eq_refl))
        as Hni.
      destruct (slot _ k) as [ob| |]; [|contradiction|congruence].
      destruct (Observable.set ob _) as [ob' evs]. run. congruence. }
    subst o2. rewrite refresh_root_eq. cbn. split; [reflexivity|].
    rewrite Hc2. apply get_set.
Qed.

End Invariant.

(** ** The claims on concrete stores *)

Section Concrete.
Import Config Scenario.
#[local] Existing Instance Plain.collaborators.



(** A rejected merge that no handler lets through leaves the last value:
    the run of the witness, continued by a declined and by a throwing
    [set], still ends on the value the first call committed. *)
Example C1_rounds_that_let_nothing_through :
  let w1 := snd (after (set (mkSet false (JObj 101 [("a", JStr "s")]) None
                              (Some accept))) store_a1) in
  let o2 := mkSet false (JObj 102 [("x", JNum 1)]) None (Some decline) in
  let o3 := mkSet false (JObj 103 [("y", JNum 1)]) None None in
  after_set o2 w1 (JObj 6 [("a", JStr "s")]) = JObj 6 [("a", JStr "s")]
  /\ after_set o3 (snd (set o2 w1)) (JObj 6 [("a", JStr "s")])
     = JObj 6 [("a", JStr "s")]
  /\ fst (set o3 (snd (set o2 w1)))
     = Throw (ValidationError
                (mkJoiError ["a must be a number"; "y is not allowed"]))
  /\ config (this (snd (set o3 (snd (set o2 w1)))))
     = JObj 6 [("a", JStr "s")].
Proof. cbv zeta. repeat split. Qed.

Lemma C2_witness :
  exists w',
    set (mkSet false (JObj 101 [("a", JStr "s"); ("x", JNum 2)]) None None)
        (snd store_a1)
    = (Throw (ValidationError
                (mkJoiError ["a must be a number"; "x is not allowed"])), w')
    /\ this w' = this (snd store_a1)
    /\ trace w' = trace (snd store_a1)
    /\ deep_equal (get None (this w')) (get None (this (snd store_a1))).
Proof.
  apply (C2_rejected_patch_throws_and_state_unchanged
           (snd store_a1) (JObj 101 [("a", JStr "s"); ("x", JNum 2)])
           number_a (JObj 6 [("a", JStr "s"); ("x", JNum 2)]) 7
           (mkJoiError ["a must be a number"; "x is not allowed"])
           (JObj 6 [("a", JStr "s"); ("x", JNum 2)]) 7).
  - split; discriminate.
  - reflexivity.
  - reflexivity.
  - reflexivity.
Defined.



(** The other branch of C5: the handler declines, nothing changes. *)
Example C5_declined :
  let r := after (set (mkSet false (JObj 101 [("x", JNum 2)]) None
                         (Some decline))) store_a1 in
  fst r = Normal tt /\ this (snd r) = this (snd store_a1).
Proof. split; reflexivity. Qed.



Lemma C10_witness :
  (set (mkSet true JNull (Some "a") None) (snd store_a1)
   = (Normal tt, snd store_a1)
   /\ set (mkSet true JUndefined (Some "a") None) (snd store_a1)
      = (Normal tt, snd store_a1))
  /\ config (this (snd (set (mkSet false (JNum 0) (Some "a") None)
                          (snd store_a1))))
     = JObj 7 [("a", JNum 0)]
  /\ fst (set (mkSet false (JNum 0) (Some "a") None) (snd store_a1))
     = Normal tt
  /\ Observable.get
       (observable (this (snd (set (mkSet false (JNum 0) (Some "a") None)
                                 (snd store_a1)))))
     = JObj 7 [("a", JNum 0)].
Proof.
  split; [apply (proj1 C10_only_null_counts_as_no_value)|].
  destruct (proj2 C10_only_null_counts_as_no_value
              (snd store_a1) (snd store_a1) false (Some "a") None (JNum 0)
              number_a (JObj 4 [("a", JNum 0)]) 5
              (JObj 7 [("a", JNum 0)]) 8 (JObj 7 [("a", JNum 0)]) 8)
    as [Hc Hr].
  - split; discriminate.
  - reflexivity.
  - reflexivity.
  - reflexivity.
  - reflexivity.
  - reflexivity.
  - split; [exact Hc|]. apply Hr. intros k Hk. injection Hk as <-. reflexivity.
Defined.

(** The falsy values are stored under a key like any other value. *)
Example C10_falsy_values_are_stored_under_a_key :
  config (this (snd (after (set (mkSet false (JBool false) (Some "b") None))
                       store_bc))) = JObj 9 [("b", JBool false)]
  /\ config (this (snd (after (set (mkSet false (JStr "") (Some "b") None))
                          store_bc))) = JObj 9 [("b", JStr "")]
  /\ config (this (snd (after (set (mkSet false (JNum 0) (Some "b") None))
                          store_bc))) = JObj 9 [("b", JNum 0)]
  /\ config (this (snd (after (set (mkSet true (JNum 0) (Some "b") None))
                          store_bc))) = JObj 13 [("b", JNum 0)].
Proof. repeat split. Qed.

(** The other falsy values go the same way; with a key they are stored. *)
Example C10_falsy_values_are_merged :
  config (this (snd (after (set (mkSet false (JBool false) None None))
                       store_a1))) = JObj 6 [("a", JNum 1)]
  /\ config (this (snd (after (set (mkSet false (JStr "") None None))
                          store_a1))) = JObj 6 [("a", JNum 1)]
  /\ config (this (snd (after (set (mkSet false (JNum 0) (Some "a") None))
                          store_a1))) = JObj 7 [("a", JNum 0)].
Proof. repeat split. Qed.

(** With [override] the state is emptied before anything is validated: on
    a schema with a required key the call throws on the empty state and
    leaves it there. *)
Example override_throws_on_the_empty_state :
  let r := after (set (mkSet true (JObj 101 [("a", JNum 2)]) None None))
             (new (SJoi required_a) (JObj 100 [("a", JNum 1)]) 0) in
  fst r = Throw (ValidationError (mkJoiError ["a is required"]))
  /\ config (this (snd r)) = JObj 5 [].
Proof. split; reflexivity. Qed.

(** C3, on the code: with [override] the listeners of the root observable
    are dropped before the new state is announced.  The same call without
    [override] reaches the listener. *)
Theorem C3_override_drops_the_root_listeners :
  let plain := after (set (mkSet false (JObj 101 [("a", JNum 2)]) None None))
                 store_a1_watched in
  let over := after (set (mkSet true (JObj 101 [("a", JNum 2)]) None None))
                store_a1_watched in
  Observable.listeners (observable (this (snd store_a1_watched))) = [7]
  /\ fst plain = Normal tt
  /\ trace (snd plain) = [(7, JObj 6 [("a", JNum 2)])]
  /\ fst over = Normal tt
  /\ config (this (snd over)) = JObj 11 [("a", JNum 2)]
  /\ Observable.get (observable (this (snd over))) = JObj 11 [("a", JNum 2)]
  /\ Observable.listeners (observable (this (snd over))) = []
  /\ trace (snd over) = [].
Proof. cbv zeta. repeat split. Qed.

(** C6, on the code: [setSchema] replaces the state and leaves the root
    observable holding the old one. *)
Theorem C6_setSchema_leaves_the_root_observable_behind :
  let r := after (setSchema (SJoi number_a) (JObj 101 [("a", JNum 2)]))
             store_a1 in
  fst r = Normal tt
  /\ config (this (snd r)) = JObj 7 [("a", JNum 2)]
  /\ Observable.get (observable (this (snd r))) = JObj 3 [("a", JNum 1)]
  /\ Observable.get (observable (this (snd r))) <> config (this (snd r))
  /\ ~ deep_equal (Observable.get (observable (this (snd r))))
                  (config (this (snd r))).
Proof. cbv zeta. repeat split; discriminate. Qed.

End Concrete.

(** C8, on the code: without a schema the constructor throws, whatever the
    collaborators and the initial values; [new Config()] ends in the
    [TypeError] of reading [validate] from [null]. *)
Theorem C8_constructor_without_schema_throws :
  (forall (L : Collaborators) (cfg : JsVal) (n : nat),
      exists e w, @Config.new L SNull cfg n = (Throw e, w))
  /\ fst (@Config.new Plain.collaborators SNull JUndefined 0) = Throw TypeError.
Proof.
  split; [|reflexivity].
  intros L cfg n. apply new_without_schema. reflexivity.
Qed.

(** * Further properties of the code *)

(** ** Observable *)

(** X1.  [set(v)] followed by [get()] gives [v], whether or not the
    listeners were called, and [set] never changes who is subscribed. *)
Theorem X1_observable_get_after_set (o : Observable.t) (v : JsVal) :
  Observable.get (fst (Observable.set o v)) = v
  /\ Observable.listeners (fst (Observable.set o v)) = Observable.listeners o.
Proof. split; [apply get_set|apply listeners_set]. Qed.

Lemma filter_not_in (l : Listener) (ls : list Listener) :
  ~ In l ls -> List.filter (fun x => negb (Nat.eqb x l)) ls = ls.
Proof.
  induction ls as [|x ls IH]; intros N; simpl; [reflexivity|].
  destruct (Nat.eqb_spec x l) as [->|Hx]; simpl.
  - exfalso. apply N. left. reflexivity.
  - rewrite IH; [reflexivity|]. intros H. apply N. right. exact H.
Qed.

Lemma filter_app_self (l : Listener) (ls : list Listener) :
  List.filter (fun x => negb (Nat.eqb x l)) (ls ++ [l])
  = List.filter (fun x => negb (Nat.eqb x l)) ls.
Proof.
  rewrite List.filter_app. simpl. rewrite Nat.eqb_refl. simpl.
  apply app_nil_r.
Qed.

(** X2.  Subscribing a listener that was not subscribed and calling the
    unsubscribe function it got back restores the observable exactly;
    unsubscribing a listener that is not subscribed changes nothing. *)
Theorem X2_subscribe_then_unsubscribe_restores
    (o : Observable.t) (l : Listener) :
  ~ In l (Observable.listeners o) ->
  Observable.unsubscribe l (Observable.subscribe o l) = o
  /\ Observable.unsubscribe l o = o.
Proof.
  intros N. destruct o as [v ls]. cbn in *.
  unfold Observable.unsubscribe, Observable.subscribe. cbn.
  rewrite filter_app_self, (filter_not_in _ _ N). split; reflexivity.
Qed.

Lemma X2_witness :
  Observable.unsubscribe 9
    (Observable.subscribe (Observable.mk (JNum 1) [7; 8]) 9)
  = Observable.mk (JNum 1) [7; 8]
  /\ Observable.unsubscribe 9 (Observable.mk (JNum 1) [7; 8])
     = Observable.mk (JNum 1) [7; 8].
Proof.
  apply (X2_subscribe_then_unsubscribe_restores (Observable.mk (JNum 1) [7; 8]) 9).
  cbn. intros [H|[H|[]]]; discriminate H.
Defined.

(** X3.  Unsubscribing is idempotent, and two unsubscriptions commute;
    in general a subscription followed by its unsubscription leaves the
    observable as after the unsubscription alone. *)
Theorem X3_unsubscribe_composes (o : Observable.t) (l l' : Listener) :
  Observable.unsubscribe l (Observable.unsubscribe l o)
  = Observable.unsubscribe l o
  /\ Observable.unsubscribe l (Observable.unsubscribe l' o)
     = Observable.unsubscribe l' (Observable.unsubscribe l o)
  /\ Observable.unsubscribe l (Observable.subscribe o l)
     = Observable.unsubscribe l o.
Proof.
  destruct o as [v ls]. unfold Observable.unsubscribe, Observable.subscribe.
  cbn. split; [|split]; f_equal.
  - induction ls as [|x ls IH]; simpl; [reflexivity|].
    destruct (Nat.eqb x l) eqn:E; simpl; [exact IH|].
    rewrite E. simpl. rewrite IH. reflexivity.
  - induction ls as [|x ls IH]; simpl; [reflexivity|].
    destruct (Nat.eqb x l') eqn:E', (Nat.eqb x l) eqn:E; simpl;
      rewrite ?E, ?E'; simpl; rewrite IH; reflexivity.
  - apply filter_app_self.
Qed.

(** X4.  The one value [set] never takes for unchanged is [NaN]: setting
    [NaN] calls every listener every time, setting any other value a second
    time calls nobody. *)
Theorem X4_only_NaN_is_announced_twice (o : Observable.t) (v : JsVal) :
  snd (Observable.set (fst (Observable.set o v)) v)
  = match v with
    | JNaN => List.map (fun l => (l, JNaN)) (Observable.listeners o)
    | _ => []
    end.
Proof.
  rewrite events_set, listeners_set.
  pose proof (get_set o v) as G. unfold Observable.get in G. rewrite G.
  destruct v; try (rewrite strict_eq_refl by discriminate; reflexivity).
  reflexivity.
Qed.

(** ** Schemas: the constructor and [setSchema] *)

Section SchemaProps.
Context {L : Collaborators}.
Import Config.

(** X5.  A value that is not a Joi schema is refused before anything is
    touched: a truthy one with the schema error, by the constructor and by
    [setSchema]; [null] and the falsy ones, which pass [_validateJoi], make
    [setSchema] fail on the missing [validate]. *)
Theorem X5_a_non_schema_is_refused (cfg : JsVal) (n : nat) (w : World) :
  fst (new (SOther true) cfg n) = Throw InvalidSchemaError
  /\ setSchema (SOther true) cfg w = (Throw InvalidSchemaError, w)
  /\ setSchema SNull cfg w = (Throw TypeError, w)
  /\ setSchema (SOther false) cfg w = (Throw TypeError, w).
Proof.
  destruct w as [c m t].
  repeat split; destruct cfg; reflexivity.
Qed.

(** X6.  [setSchema] validates before it changes anything: when the new
    schema rejects the data (the argument, or the current state when none
    is given), the call throws the collected error and the object keeps its
    schema, state and observables. *)
Theorem X6_setSchema_rejection_changes_nothing
    (w : World) (j : Schema) (cfg : JsVal)
    (e : JoiError) (v : JsVal) (n1 : nat) :
  validate j (match cfg with JUndefined => config (this w) | _ => cfg end)
    strict (fresh w) = (Normal (mkResult (Some e) v), n1) ->
  setSchema (SJoi j) cfg w
  = (Throw (ValidationError e), mkWorld (this w) n1 (trace w)).
Proof.
  intros H. destruct w as [c m t]. cbn in *.
  unfold setSchema, _validateJoi. run. cbn. run. rewrite H. reflexivity.
Qed.

(** X7.  When the new schema accepts the data and accepts it again once it
    is merged into the emptied state, [setSchema] returns with the new
    schema installed and the state replaced by what the schema returned for
    the merge. *)
Theorem X7_setSchema_installs_schema_and_state
    (w : World) (j : Schema) (cfg : JsVal)
    (v0 : JsVal) (n1 : nat) (merged : JsVal) (n2 : nat) (v : JsVal) (n3 : nat) :
  let data := match cfg with JUndefined => config (this w) | _ => cfg end in
  validate j data strict (fresh w) = (Normal (mkResult None v0), n1) ->
  deepMerge_all [JObj n1 []; data] (S n1) = (Normal merged, n2) ->
  validate j merged strict n2 = (Normal (mkResult None v), n3) ->
  exists w',
    setSchema (SJoi j) cfg w = (Normal tt, w')
    /\ schema (this w') = SJoi j
    /\ config (this w') = v.
Proof.
  intros data H0 Hm Hv. destruct w as [c m t]. cbn in *.
  unfold setSchema, _validateJoi. run. cbn. run.
  fold data. rewrite H0. cbn. run.
  erewrite merge_commit; [|reflexivity|exact Hm|exact Hv].
  eexists. split; [reflexivity|]. split; reflexivity.
Qed.

(** X8.  [setSchema] calls no listener and leaves every observable, root
    and per-key, as it was, however it ends. *)
Theorem X8_setSchema_never_touches_the_observables
    (s : SchemaVal) (cfg : JsVal) (w : World) :
  trace (snd (setSchema s cfg w)) = trace w
  /\ observable (this (snd (setSchema s cfg w))) = observable (this w)
  /\ observables (this (snd (setSchema s cfg w))) = observables (this w).
Proof.
  destruct (setSchema s cfg w) as [out w'] eqn:H. cbn [snd].
  unfold setSchema, _validateJoi in H. run.
  destruct (truthy_schema s && negb (isSchema s)); run;
    [simplify_eq/=; repeat split|].
  destruct s as [|b|j]; run;
    try solve [simplify_eq/=; repeat split; reflexivity].
  destruct (validate j _ strict (fresh w)) as [[[[e'|] v]|e'] n1]; cbn in H;
    run; try solve [simplify_eq/=; repeat split; reflexivity].
  match type of H with
  | context [_merge ?a ?b ?c] =>
      destruct (_merge a b c) as [o1 w1] eqn:Hm;
      apply merge_inv in Hm; cbn in Hm;
      destruct Hm as (_ & Ho & Hos & Ht & _)
  end.
  simplify_eq/=. repeat split; assumption.
Qed.

(** A [_merge] without handler that returned has committed what the schema
    returned for the merge of the value into the state, accepted. *)
Lemma merge_returned_without_handler nv w w' :
  _merge nv None w = (Normal tt, w') ->
  exists j merged n1 n2,
    schema (this w) = SJoi j
    /\ deepMerge_all [config (this w); nv] (fresh w) = (Normal merged, n1)
    /\ validate j merged strict n1
       = (Normal (mkResult None (config (this w'))), n2).
Proof.
  unfold _merge. intros H. run.
  destruct (deepMerge_all _ _) as [[m|e] n1] eqn:Hm; [|discriminate].
  destruct (schema (this w)) as [| |j]; run; try discriminate.
  destruct (validate j m strict n1) as [[[[e|] v]|e] n2] eqn:Hv; cbn in H;
    run; try discriminate.
  injection H as <-. cbn. eauto 8.
Qed.

(** X9.  What a construction that returned guarantees: the schema is a Joi
    schema, the state is what it returned, accepting it, for the merge of
    the initial values into the empty state, the root observable holds that
    state and has no listener, there is no per-key observable, and nobody
    was called. *)
Theorem X9_a_constructed_store (s : SchemaVal) (cfg : JsVal) (n : nat) (w : World) :
  new s cfg n = (Normal tt, w) ->
  (exists j merged n1 n2,
      s = SJoi j
      /\ deepMerge_all [fst (fst (initial cfg n)); snd (fst (initial cfg n))]
           (snd (initial cfg n)) = (Normal merged, n1)
      /\ validate j merged strict n1
         = (Normal (mkResult None (config (this w))), n2))
  /\ schema (this w) = s
  /\ observable (this w) = Observable.mk (config (this w)) []
  /\ observables (this w) = ∅
  /\ trace w = [].
Proof.
  intros H. pose proof (new_inv _ _ _ _ H) as (Hs & Ht & _ & Ho & Hos).
  split; [|repeat split; assumption].
  unfold new, constructor, _validateJoi, _initializeConfig in H. run.
  destruct cfg, s as [|[]|j]; cbn in H; run; try discriminate;
    match type of H with
    | context [_merge ?a ?b ?c] =>
        destruct (_merge a b c) as [[[]|e] w1] eqn:Hm;
        cbn in H; [|discriminate H];
        apply merge_returned_without_handler in Hm;
        destruct Hm as (j' & merged & n1 & n2 & Hj & Hm & Hv);
        cbn in Hj, Hm, Hv; injection H as <-; cbn;
        try discriminate Hj;
        exists j', merged, n1, n2; repeat split; assumption
    end.
Qed.

(** X10.  Initial values the schema rejects make the constructor throw the
    collected error. *)
Theorem X10_constructor_rejects_invalid_initial_values
    (j : Schema) (cfg : JsVal) (n : nat)
    (merged : JsVal) (n1 : nat) (e : JoiError) (v : JsVal) (n2 : nat) :
  cfg <> JUndefined ->
  deepMerge_all [JObj n []; cfg] (S n) = (Normal merged, n1) ->
  validate j merged strict n1 = (Normal (mkResult (Some e) v), n2) ->
  fst (new (SJoi j) cfg n) = Throw (ValidationError e).
Proof.
  intros Hc Hm Hv. unfold new, constructor, _validateJoi, _initializeConfig.
  destruct cfg; try (exfalso; apply Hc; reflexivity); cbn; run; cbn; run;
    (erewrite merge_reject; [reflexivity|reflexivity|exact Hm|exact Hv]).
Qed.

End SchemaProps.

(** ** Subscriptions *)

Section SubscribeProps.
Context {L : Collaborators}.
Import Config.

Lemma slot_own_inv m k ob : slot m k = Own ob -> m !! k = Some ob.
Proof.
  unfold slot. destruct (m !! k); [congruence|].
  destruct (inherited k); discriminate.
Qed.

Lemma subscribe_inv f key w r w' :
  subscribe f key w = (r, w') ->
  config (this w') = config (this w)
  /\ schema (this w') = schema (this w)
  /\ trace w' = trace w
  /\ Observable.val (observable (this w')) = Observable.val (observable (this w)).
Proof.
  unfold subscribe. intros H.
  destruct f as [f|]; [|run; simplify_eq/=; repeat split].
  destruct (truthy_key key) as [k|]; run;
    [|simplify_eq/=; repeat split].
  destruct (slot (observables (this w)) k) as [ob| |] eqn:Es; run;
    cbn in H; run.
  - rewrite Es in H. run. simplify_eq/=. repeat split.
  - rewrite Es in H. run. simplify_eq/=. repeat split.
  - unfold slot in H. rewrite lookup_insert_eq in H. run.
    simplify_eq/=. repeat split.
Qed.

(** X11.  [subscribe] never changes the state or the schema and never
    calls a listener; without an [onChange] it returns [undefined] and
    changes nothing at all, key or no key. *)
Theorem X11_subscribe_leaves_the_state_alone
    (f : option Listener) (key : option string) (w : World) :
  config (this (snd (subscribe f key w))) = config (this w)
  /\ schema (this (snd (subscribe f key w))) = schema (this w)
  /\ trace (snd (subscribe f key w)) = trace w
  /\ subscribe None key w = (Normal None, w).
Proof.
  destruct (subscribe f key w) as [r w'] eqn:H. cbn [snd].
  apply subscribe_inv in H. destruct H as (Hc & Hs & Ht & _).
  destruct w. repeat split; assumption.
Qed.

(** X12.  A subscription with a key creates the observable of that key on
    first use, seeded with the value now at the key, and afterwards adds
    the listener to the one that exists without reading the state again;
    the observables of the other keys are not touched. *)
Theorem X12_keyed_subscription_creates_once
    (f : Listener) (key : option string) (k : string) (w : World) :
  truthy_key key = Some k ->
  inherited k = false ->
  exists w',
    subscribe (Some f) key w = (Normal (Some (Some k, f)), w')
    /\ observables (this w') !! k
       = Some match observables (this w) !! k with
              | Some ob =>
                  Observable.mk (Observable.val ob)
                    (Observable.listeners ob ++ [f])
              | None => Observable.mk (lodash_get (config (this w)) k) [f]
              end
    /\ (forall k', k' <> k ->
          observables (this w') !! k' = observables (this w) !! k')
    /\ observable (this w') = observable (this w).
Proof.
  intros Hk Hi. unfold subscribe. rewrite Hk. run.
  destruct (observables (this w) !! k) as [ob|] eqn:Hm.
  - unfold slot. rewrite Hm. run. rewrite Hm. run.
    eexists. split; [reflexivity|]. cbn.
    rewrite lookup_insert_eq. split; [reflexivity|].
    split; [|reflexivity]. intros k' N. apply lookup_insert_ne. congruence.
  - unfold slot at 1. rewrite Hm, Hi. run.
    unfold slot. cbn. rewrite lookup_insert_eq. run.
    eexists. split; [reflexivity|]. cbn.
    rewrite lookup_insert_eq, (truthy_key_get _ _ _ Hk).
    split; [reflexivity|]. split; [|reflexivity].
    intros k' N. rewrite !lookup_insert_ne by congruence. reflexivity.
Qed.

(** X13.  A key that names a member every object inherits ([toString],
    [constructor], ...) cannot be subscribed to: the lookup finds the
    inherited member instead of an observable, and the call ends in a
    [TypeError] with nothing created. *)
Theorem X13_inherited_names_cannot_be_subscribed
    (f : Listener) (key : option string) (k : string) (w : World) :
  truthy_key key = Some k ->
  inherited k = true ->
  observables (this w) !! k = None ->
  subscribe (Some f) key w = (Throw TypeError, w).
Proof.
  intros Hk Hi Hm. destruct w as [c n t]. cbn in Hm.
  unfold subscribe. rewrite Hk. run.
  unfold slot. rewrite Hm, Hi. run. rewrite Hm. reflexivity.
Qed.

End SubscribeProps.

(** ** [set] *)

Section SetMore.
Context {L : Collaborators}.
Import Config.

Lemma refresh_key_subscriptions key w out w' :
  refresh_key key w = (out, w') ->
  observable (this w') = observable (this w)
  /\ forall k,
       Observable.listeners <$> (observables (this w') !! k)
       = Observable.listeners <$> (observables (this w) !! k).
Proof.
  unfold refresh_key. intros H. destruct (truthy_key key) as [k0|]; run;
    [|simplify_eq/=; split; reflexivity].
  destruct (slot _ k0) as [ob| |] eqn:Es;
    [|simplify_eq/=; split; reflexivity..].
  apply slot_own_inv in Es.
  destruct (Observable.set ob _) as [ob' evs] eqn:E. run. simplify_eq/=.
  split; [reflexivity|]. intros k.
  destruct (decide (k0 = k)) as [->|N].
  - rewrite lookup_insert_eq, Es. cbn. f_equal.
    change ob' with (fst (ob', evs)). rewrite <- E. apply listeners_set.
  - rewrite lookup_insert_ne by exact N. reflexivity.
Qed.

(** X14.  [set] without [override] never changes who is subscribed,
    however it ends: the listeners of the root observable and of every
    per-key observable are the same after the call, and no per-key
    observable is created or removed. *)
Theorem X14_set_keeps_every_subscription
    (p : JsVal) (key : option string) (h : option Handler) (w : World) :
  Observable.listeners (observable (this (snd (set (mkSet false p key h) w))))
  = Observable.listeners (observable (this w))
  /\ forall k,
       Observable.listeners
         <$> (observables (this (snd (set (mkSet false p key h) w))) !! k)
       = Observable.listeners <$> (observables (this w) !! k).
Proof.
  destruct (set (mkSet false p key h) w) as [out w'] eqn:H. cbn [snd].
  destruct (strict_eq (default_null p) JNull) eqn:Hn.
  - unfold set in H. cbn [opt_value] in H. cbv zeta in H. rewrite Hn in H.
    run. simplify_eq/=. split; reflexivity.
  - rewrite (set_stages _ _ _ _ (not_null_given _ Hn)) in H. run.
    destruct (setValue key p (fresh w)) as [[sv|e] n0];
      [|simplify_eq/=; split; reflexivity].
    destruct (_merge sv h _) as [o1 w1] eqn:Hm.
    apply merge_inv in Hm. cbn in Hm. destruct Hm as (_ & Ho & Hos & _ & _).
    destruct o1 as [[]|e]; [|simplify_eq/=; rewrite Ho, Hos; split; reflexivity].
    destruct (refresh_key key w1) as [o2 w2] eqn:Hk.
    apply refresh_key_subscriptions in Hk. destruct Hk as [Ho2 Hos2].
    destruct o2 as [[]|e];
      [rewrite refresh_root_eq in H|]; simplify_eq/=;
      rewrite ?listeners_set, Ho2, Ho; (split; [reflexivity|]);
      intros k; rewrite Hos2, Hos; reflexivity.
Qed.

Lemma set_schema_kept (o : SetOptions) (w : World) :
  schema (this (snd (set o w))) = schema (this w).
Proof.
  destruct o as [ov p key h]. destruct ov.
  - destruct (set (mkSet true p key h) w) as [out w'] eqn:H. cbn [snd].
    destruct (strict_eq (default_null p) JNull) eqn:Hn.
    + unfold set in H. cbn [opt_value] in H. cbv zeta in H. rewrite Hn in H.
      run. simplify_eq/=. reflexivity.
    + rewrite (set_stages _ _ _ _ (not_null_given _ Hn)) in H. run.
      destruct (_initializeConfig JUndefined w) as [o0 w0] eqn:Hi.
      apply initializeConfig_inv in Hi. destruct Hi as (Hs0 & _).
      destruct o0 as [[]|e]; [|simplify_eq/=; exact Hs0].
      destruct (setValue key p (fresh w0)) as [[sv|e] n0];
        [|simplify_eq/=; exact Hs0].
      destruct (_merge sv h _) as [o1 w1] eqn:Hm.
      apply merge_inv in Hm. cbn in Hm. destruct Hm as (Hs1 & _).
      destruct o1 as [[]|e]; [|simplify_eq/=; congruence].
      destruct (refresh_key key w1) as [o2 w2] eqn:Hk.
      apply refresh_key_frame in Hk. destruct Hk as [_ Hs2].
      destruct o2 as [[]|e]; [rewrite refresh_root_eq in H|];
        simplify_eq/=; congruence.
  - apply (set_state_inv (mkSet false p key h) w eq_refl).
Qed.

(** X15.  [set] never changes the schema, with or without [override] and
    however it ends. *)
Theorem X15_set_keeps_the_schema (o : SetOptions) (w : World) :
  schema (this (snd (set o w))) = schema (this w).
Proof.
  apply set_schema_kept.
Qed.


(** X17.  A [set] without [override] and without key whose handler
    declines leaves the state alone but still hands it to the root
    observable: the root listeners are called with the unchanged state
    exactly when the root observable was holding another value. *)
Theorem X17_a_declined_set_still_syncs_the_root_observable
    (w : World) (p : JsVal) (h : Handler) (j : Schema)
    (merged : JsVal) (n1 : nat) (e : JoiError) (v : JsVal) (n2 : nat) :
  given p ->
  schema (this w) = SJoi j ->
  deepMerge_all [config (this w); p] (fresh w) = (Normal merged, n1) ->
  validate j merged strict n1 = (Normal (mkResult (Some e) v), n2) ->
  h e = false ->
  exists w',
    set (mkSet false p None (Some h)) w = (Normal tt, w')
    /\ config (this w') = config (this w)
    /\ Observable.get (observable (this w')) = config (this w)
    /\ trace w'
       = (trace w
          ++ if strict_eq (Observable.val (observable (this w)))
                  (config (this w))
             then []
             else List.map (fun l => (l, config (this w)))
                    (Observable.listeners (observable (this w))))%list.
Proof.
  intros Hp Hs Hm Hv Hh. rewrite (set_stages _ _ _ _ Hp).
  destruct w as [c n t]. cbn in *. run.
  unfold setValue. cbn [truthy_key]. run.
  erewrite merge_swallow by eassumption.
  unfold refresh_key. cbn [truthy_key]. run. rewrite refresh_root_eq.
  eexists. split; [reflexivity|]. cbn.
  split; [reflexivity|]. split; [apply (get_set (observable c))|].
  rewrite events_set. reflexivity.
Qed.


(** X19.  The empty string is no key: [get], [set] and [subscribe] treat it
    as if no key had been given. *)
Theorem X19_the_empty_key_is_no_key
    (c : t) (w : World) (ov : bool) (p : JsVal) (h : option Handler)
    (f : option Listener) :
  get (Some "") c = get None c
  /\ set (mkSet ov p (Some "") h) w = set (mkSet ov p None h) w
  /\ subscribe f (Some "") w = subscribe f None w.
Proof. repeat split. Qed.

End SetMore.

(** ** [override] replaces, returned calls settle *)

Section Override.
Context {L : Collaborators}.
Import Config.

(** [_merge] reads the state, the schema and the allocator, nothing else. *)
Lemma merge_reads nv h w1 w2 :
  config (this w1) = config (this w2) ->
  schema (this w1) = schema (this w2) ->
  fresh w1 = fresh w2 ->
  fst (_merge nv h w1) = fst (_merge nv h w2)
  /\ config (this (snd (_merge nv h w1))) = config (this (snd (_merge nv h w2)))
  /\ fresh (snd (_merge nv h w1)) = fresh (snd (_merge nv h w2)).
Proof.
  destruct w1 as [[c1 s1 o1 os1] n1 t1], w2 as [[c2 s2 o2 os2] n2 t2].
  cbn. intros -> -> ->. unfold _merge. run. cbn.
  destruct (deepMerge_all _ _) as [[m|e] n]; [|repeat split].
  destruct s2 as [| |j]; run; cbn; try solve [repeat split].
  destruct (validate j m strict n) as [[[[e|] v]|e] n']; cbn; run;
    try solve [repeat split].
  destruct h as [h|]; [|repeat split].
  destruct (h e); [|repeat split]. run. cbn.
  destruct (validate j m lenient n') as [[r|e'] n'']; repeat split.
Qed.

Lemma world_eq (w1 w2 : World) :
  config (this w1) = config (this w2) ->
  schema (this w1) = schema (this w2) ->
  observable (this w1) = observable (this w2) ->
  observables (this w1) = observables (this w2) ->
  this w1 = this w2.
Proof.
  destruct w1 as [[] ? ?], w2 as [[] ? ?]. cbn. congruence.
Qed.

Lemma initializeConfig_reads cfg w1 w2 :
  schema (this w1) = schema (this w2) ->
  fresh w1 = fresh w2 ->
  fst (_initializeConfig cfg w1) = fst (_initializeConfig cfg w2)
  /\ config (this (snd (_initializeConfig cfg w1)))
     = config (this (snd (_initializeConfig cfg w2)))
  /\ fresh (snd (_initializeConfig cfg w1))
     = fresh (snd (_initializeConfig cfg w2)).
Proof.
  intros Hs Hf. unfold _initializeConfig. run.
  destruct cfg; cbn; run; rewrite Hf;
    match goal with
    | |- context [_merge ?a ?b ?c] =>
        match goal with
        | |- context [_merge a b ?d] =>
            lazymatch d with
            | c => fail
            | _ =>
                let H := fresh "H" in
                assert (H := merge_reads a b c d eq_refl Hs eq_refl);
                destruct (_merge a b c) as [[[]|?] ?];
                destruct (_merge a b d) as [[[]|?] ?];
                cbn in H; destruct H as (? & ? & ?);
                simplify_eq/=; repeat split; assumption
            end
        end
    end.
Qed.

Lemma refresh_key_reads key w1 w2 :
  this w1 = this w2 -> fresh w1 = fresh w2 ->
  fst (refresh_key key w1) = fst (refresh_key key w2)
  /\ this (snd (refresh_key key w1)) = this (snd (refresh_key key w2))
  /\ fresh (snd (refresh_key key w1)) = fresh (snd (refresh_key key w2)).
Proof.
  destruct w1 as [c1 n1 t1], w2 as [c2 n2 t2]. cbn. intros -> ->.
  unfold refresh_key. destruct (truthy_key key) as [k|]; run;
    [|repeat split].
  destruct (slot _ k) as [ob| |]; try solve [repeat split].
  destruct (Observable.set ob _) as [ob' evs]. run. repeat split.
Qed.

(** The part of [set] that follows the reset. *)
Lemma set_tail_reads key p h w1 w2 :
  this w1 = this w2 -> fresh w1 = fresh w2 ->
  let tail :=
    (sv ← call (setValue key p); _merge sv h;; refresh_key key;; refresh_root) in
  fst (tail w1) = fst (tail w2)
  /\ this (snd (tail w1)) = this (snd (tail w2)).
Proof.
  intros Ht Hf tail. unfold tail. run. rewrite Hf.
  destruct (setValue key p (fresh w2)) as [[sv|e] n0];
    [|split; [reflexivity|exact Ht]].
  rewrite Ht.
  set (a := mkWorld (this w2) n0 (trace w1)).
  set (b := mkWorld (this w2) n0 (trace w2)).
  pose proof (merge_reads sv h a b eq_refl eq_refl eq_refl) as (H1 & H2 & H3).
  destruct (_merge sv h a) as [o1 a1] eqn:Ea.
  destruct (_merge sv h b) as [o2 b1] eqn:Eb.
  apply merge_inv in Ea. apply merge_inv in Eb. cbn in *.
  destruct Ea as (Es1 & Eo1 & Eos1 & _ & _).
  destruct Eb as (Es2 & Eo2 & Eos2 & _ & _).
  assert (Hth : this a1 = this b1) by (apply world_eq; congruence).
  subst o2. destruct o1 as [[]|e]; [|split; [reflexivity|exact Hth]].
  pose proof (refresh_key_reads key a1 b1 Hth H3) as (K1 & K2 & K3).
  destruct (refresh_key key a1) as [o3 a2].
  destruct (refresh_key key b1) as [o4 b2]. cbn in *. subst o4.
  destruct o3 as [[]|e]; [|split; [reflexivity|exact K2]].
  rewrite !refresh_root_eq. cbn. rewrite K2. split; reflexivity.
Qed.

(** X20.  [override] is a full replacement: what a [set] with [override]
    does depends on the schema and the value alone, not on the state that
    was there nor on the subscriptions.  From two stores with the same
    schema the call ends the same way with the same state, and when it
    returns the two stores are equal, observables included. *)
Theorem X20_override_forgets_the_previous_state
    (p : JsVal) (key : option string) (h : option Handler) (w1 w2 : World) :
  given p ->
  schema (this w1) = schema (this w2) ->
  fresh w1 = fresh w2 ->
  let r1 := set (mkSet true p key h) w1 in
  let r2 := set (mkSet true p key h) w2 in
  fst r1 = fst r2
  /\ config (this (snd r1)) = config (this (snd r2))
  /\ (fst r1 = Normal tt -> this (snd r1) = this (snd r2)).
Proof.
  intros Hp Hs Hf r1 r2. unfold r1, r2. rewrite (set_stages _ _ _ _ Hp). run.
  pose proof (initializeConfig_reads JUndefined w1 w2 Hs Hf) as (I1 & I2 & I3).
  destruct (_initializeConfig JUndefined w1) as [o1 a] eqn:Ea.
  destruct (_initializeConfig JUndefined w2) as [o2 b] eqn:Eb.
  apply initializeConfig_inv in Ea. apply initializeConfig_inv in Eb.
  cbn in *. subst o2.
  destruct Ea as (Es1 & _ & Ea). destruct Eb as (Es2 & _ & Eb).
  destruct o1 as [[]|e];
    [|split; [reflexivity|split; [exact I2|discriminate]]].
  destruct Ea as (_ & Eo1 & Eos1). destruct Eb as (_ & Eo2 & Eos2).
  assert (Hth : this a = this b)
    by (apply world_eq; [exact I2|congruence|rewrite Eo1, Eo2, I2; reflexivity
                        |congruence]).
  pose proof (set_tail_reads key p h a b Hth I3) as [T1 T2]. cbn in T1, T2.
  run. split; [exact T1|]. split; [rewrite T2; reflexivity|].
  intros _. exact T2.
Qed.

(** X21.  After [new Config] and any number of [subscribe] calls and of
    [set] calls that returned, with or without [override], the store is
    settled: the schema is a Joi schema and the root observable holds
    exactly the state [get()] returns. *)
Theorem X21_a_settled_store_is_consistent (w : World) :
  Settled w ->
  isSchema (schema (this w)) = true
  /\ Observable.get (observable (this w)) = get None (this w).
Proof.
  induction 1 as [s cfg n w Hn
                 |f key w r w' _ (IHs & IHm) Hsub
                 |o w w' _ (IHs & IHm) Hset].
  - pose proof (new_inv _ _ _ _ Hn) as (Hs & _ & Hv & Ho & _).
    rewrite Hs, Ho. split; [|reflexivity].
    destruct Hv as (j & _ & _ & _ & -> & _). reflexivity.
  - apply subscribe_inv in Hsub. destruct Hsub as (Hc & Hs & _ & Hv).
    unfold get, Observable.get in *. cbn in *. rewrite Hs, Hc, Hv.
    split; assumption.
  - pose proof (set_schema_kept o w) as Hs. rewrite Hset in Hs. cbn in Hs.
    rewrite Hs. split; [exact IHs|].
    destruct o as [ov p key h].
    destruct (strict_eq (default_null p) JNull) eqn:Hn.
    + unfold set in Hset. cbn [opt_value] in Hset. cbv zeta in Hset.
      rewrite Hn in Hset. run. simplify_eq/=. assumption.
    + pose proof (not_null_given _ Hn) as Hp.
      apply (set_returned_mirrors _ _ _ _ _ _ Hp Hset).
Qed.

End Override.

(** ** The further properties on concrete stores *)

Section MoreConcrete.
Import Config Scenario Cases.
#[local] Existing Instance Plain.collaborators.

Lemma X6_witness :
  setSchema (SJoi number_a) (JObj 101 [("a", JStr "s")]) (snd store_a1)
  = (Throw (ValidationError (mkJoiError ["a must be a number"])),
     mkWorld (this (snd store_a1)) 4 (trace (snd store_a1))).
Proof.
  apply (X6_setSchema_rejection_changes_nothing
           (snd store_a1) number_a (JObj 101 [("a", JStr "s")])
           (mkJoiError ["a must be a number"])
           (JObj 101 [("a", JStr "s")]) 4).
  reflexivity.
Defined.

Lemma X7_witness :
  exists w',
    setSchema (SJoi required_a) (JObj 101 [("a", JNum 2)])
      (snd store_a1_watched) = (Normal tt, w')
    /\ schema (this w') = SJoi required_a
    /\ config (this w') = JObj 7 [("a", JNum 2)].
Proof.
  apply (X7_setSchema_installs_schema_and_state
           (snd store_a1_watched) required_a (JObj 101 [("a", JNum 2)])
           (JObj 101 [("a", JNum 2)]) 4
           (JObj 7 [("a", JNum 2)]) 8 (JObj 7 [("a", JNum 2)]) 8);
    reflexivity.
Defined.

Lemma X9_witness :
  (exists j merged n1 n2,
      SJoi number_a = SJoi j
      /\ deepMerge_all [JObj 0 []; JObj 100 [("a", JNum 1)]] 1
         = (Normal merged, n1)
      /\ validate j merged strict n1
         = (Normal (mkResult None (config (this (snd store_a1)))), n2))
  /\ schema (this (snd store_a1)) = SJoi number_a
  /\ observable (this (snd store_a1))
     = Observable.mk (config (this (snd store_a1))) []
  /\ observables (this (snd store_a1)) = ∅
  /\ trace (snd store_a1) = [].
Proof.
  apply (X9_a_constructed_store
           (SJoi number_a) (JObj 100 [("a", JNum 1)]) 0 (snd store_a1)).
  reflexivity.
Defined.

Lemma X10_witness :
  fst (new (SJoi number_a) (JObj 100 [("a", JStr "s")]) 0)
  = Throw (ValidationError (mkJoiError ["a must be a number"])).
Proof.
  apply (X10_constructor_rejects_invalid_initial_values
           number_a (JObj 100 [("a", JStr "s")]) 0
           (JObj 3 [("a", JStr "s")]) 4
           (mkJoiError ["a must be a number"])
           (JObj 3 [("a", JStr "s")]) 4).
  - discriminate.
  - reflexivity.
  - reflexivity.
Defined.

Lemma X12_witness :
  exists w',
    subscribe (Some 8) (Some "b.c") (snd store_bc_watched)
    = (Normal (Some (Some "b.c", 8)), w')
    /\ observables (this w') !! "b.c"
       = Some match observables (this (snd store_bc_watched)) !! "b.c" with
              | Some ob =>
                  Observable.mk (Observable.val ob)
                    (Observable.listeners ob ++ [8])
              | None =>
                  Observable.mk
                    (lodash_get (config (this (snd store_bc_watched))) "b.c")
                    [8]
              end
    /\ (forall k', k' <> "b.c" ->
          observables (this w') !! k'
          = observables (this (snd store_bc_watched)) !! k')
    /\ observable (this w') = observable (this (snd store_bc_watched)).
Proof.
  apply (X12_keyed_subscription_creates_once
           8 (Some "b.c") "b.c" (snd store_bc_watched));
    reflexivity.
Defined.

Lemma X13_witness :
  subscribe (Some 7) (Some "toString") (snd store_a1)
  = (Throw TypeError, snd store_a1).
Proof.
  apply (X13_inherited_names_cannot_be_subscribed
           7 (Some "toString") "toString" (snd store_a1));
    reflexivity.
Defined.


Lemma X17_witness :
  exists w',
    set (mkSet false (JObj 101 [("x", JNum 2)]) None (Some decline))
        (snd store_a2_stale) = (Normal tt, w')
    /\ config (this w') = JObj 7 [("a", JNum 2)]
    /\ Observable.get (observable (this w')) = JObj 7 [("a", JNum 2)]
    /\ trace w' = [(7, JObj 7 [("a", JNum 2)])].
Proof.
  exact (X17_a_declined_set_still_syncs_the_root_observable
           (snd store_a2_stale) (JObj 101 [("x", JNum 2)]) decline number_a
           (JObj 10 [("a", JNum 2); ("x", JNum 2)]) 11
           (mkJoiError ["x is not allowed"])
           (JObj 10 [("a", JNum 2); ("x", JNum 2)]) 11
           ltac:(split; discriminate)
           ltac:(reflexivity) ltac:(reflexivity) ltac:(reflexivity)
           ltac:(reflexivity)).
Defined.


Lemma X20_witness :
  let r1 := set (mkSet true (JObj 101 [("a", JNum 2)]) None None)
              (snd store_a1_watched) in
  let r2 := set (mkSet true (JObj 101 [("a", JNum 2)]) None None)
              (snd store_a5) in
  config (this (snd store_a1_watched)) <> config (this (snd store_a5))
  /\ fst r1 = fst r2
  /\ config (this (snd r1)) = config (this (snd r2))
  /\ (fst r1 = Normal tt -> this (snd r1) = this (snd r2)).
Proof.
  split; [discriminate|].
  apply (X20_override_forgets_the_previous_state
           (JObj 101 [("a", JNum 2)]) None None
           (snd store_a1_watched) (snd store_a5)).
  - split; discriminate.
  - reflexivity.
  - reflexivity.
Defined.

Lemma X21_witness :
  let w := snd (after (set (mkSet true (JObj 101 [("a", JNum 2)]) None None))
                  store_a1_watched) in
  Settled w
  /\ isSchema (schema (this w)) = true
  /\ Observable.get (observable (this w)) = get None (this w).
Proof.
  cbv zeta.
  assert (S : Settled
                (snd (after (set (mkSet true (JObj 101 [("a", JNum 2)])
                                    None None)) store_a1_watched))).
  { apply (settled_set (mkSet true (JObj 101 [("a", JNum 2)]) None None)
             (snd store_a1_watched)); [|reflexivity].
    apply (settled_subscribe (Some 7) None (snd store_a1)
             (fst store_a1_watched)); [|reflexivity].
    apply (settled_new (SJoi number_a) (JObj 100 [("a", JNum 1)]) 0).
    reflexivity. }
  split; [exact S|].
  apply (X21_a_settled_store_is_consistent _ S).
Defined.

End MoreConcrete.
